(** * Kokoro MCP server: temporary-artifact lifecycle and access control

    Shallow embedding of [config.py], [http_server.py], [main.py] and
    [kokoro_service.py] together with the parts of the Python runtime they
    lean on (exceptions, [pathlib], [urllib.parse.urlparse], [tempfile]),
    followed by the properties of the artifact directory that the
    specification states.

    Conventions.  A Python [str] is a [string]; an absolute POSIX path is the
    list of its components below the root; the file system is a finite map
    from such paths to nodes; a function that can raise returns a [result];
    a function with effects takes the state it reads and returns the state
    it leaves. *)

From Stdlib Require Import ZArith Ascii String List Lia Bool.
From Stdlib Require Import Numbers.DecimalString.
From stdpp Require Import base option list strings gmap fin_maps.

Open Scope string_scope.
Open Scope list_scope.

(* ===================================================================== *)
(** * Python runtime                                                      *)
(* ===================================================================== *)

(** ** Exceptions *)

(** The exception classes that occur in the program and in the library
    calls it makes.  [NotFound] is [werkzeug.exceptions.NotFound]. *)
Inductive exn_class :=
  | Exception | ValueError | TypeError | RuntimeError | LookupError
  | KeyError | IndexError | OverflowError | OSError | FileNotFoundError
  | FileExistsError | IsADirectoryError | NotADirectoryError
  | AttributeError | MockMCPServerError | NotFound.

Global Instance exn_class_eq_dec : EqDecision exn_class.
Proof. solve_decision. Defined.

(** Direct base class, [None] for [Exception] itself. *)
Definition base_class (c : exn_class) : option exn_class :=
  match c with
  | Exception => None
  | KeyError | IndexError => Some LookupError
  | OverflowError => Some Exception
  | FileNotFoundError | FileExistsError
  | IsADirectoryError | NotADirectoryError => Some OSError
  | _ => Some Exception
  end.

(** [issubclass(c, d)]: the class tree above has depth 3. *)
Definition issubclass (c d : exn_class) : bool :=
  bool_decide (c = d)
  || match base_class c with
     | None => false
     | Some b =>
         bool_decide (b = d)
         || match base_class b with
            | None => false
            | Some b' => bool_decide (b' = d)
            end
     end.

Record exn := Exn { exn_cls : exn_class; exn_msg : string }.

Global Instance exn_eq_dec : EqDecision exn.
Proof. solve_decision. Defined.

(** [isinstance(e, c)] and [str(e)]. *)
Definition isinstance (e : exn) (c : exn_class) : bool := issubclass (exn_cls e) c.
Definition str_exn (e : exn) : string := exn_msg e.

Inductive result (A : Type) :=
  | Ok (a : A)
  | Raise (e : exn).
Arguments Ok {A} a.
Arguments Raise {A} e.

(** Sequencing: an exception raised on the left skips the rest. *)
Global Instance result_ret : MRet result := fun A a => Ok a.
Global Instance result_bind : MBind result := fun A B k r =>
  match r with
  | Ok a => k a
  | Raise e => Raise e
  end.

(** ** Values that cross the tool boundary *)

(** A Python [float] is identified by its [repr] (["1.2"], ["-0.0"],
    ["inf"]); the program only tests it for truth, prints it and passes it
    on. *)
Inductive pyfloat := Float (repr : string).

Inductive value :=
  | VNone
  | VBool (b : bool)
  | VInt (z : Z)
  | VFloat (f : pyfloat)
  | VStr (s : string).

(** Truth value of [v], as in [if not v]. *)
Definition truthy (v : value) : bool :=
  match v with
  | VNone => false
  | VBool b => b
  | VInt z => negb (z =? 0)%Z
  | VFloat (Float r) => negb (bool_decide (r = "0.0") || bool_decide (r = "-0.0"))
  | VStr s => negb (bool_decide (s = ""))
  end.

(** ** Strings *)

(** [s.startswith(p)] *)
Fixpoint startswith (s p : string) {struct p} : bool :=
  match p, s with
  | EmptyString, _ => true
  | String b p', String a s' => Ascii.eqb a b && startswith s' p'
  | String _ _, EmptyString => false
  end.

(** [c in s] for a one-character [c]. *)
Fixpoint contains_char (c : ascii) (s : string) : bool :=
  match s with
  | EmptyString => false
  | String a s' => Ascii.eqb a c || contains_char c s'
  end.

(** [s.split(c)] for a one-character separator. *)
Fixpoint split_on (c : ascii) (s : string) : list string :=
  match s with
  | EmptyString => [EmptyString]
  | String a s' =>
      if Ascii.eqb a c then EmptyString :: split_on c s'
      else match split_on c s' with
           | w :: ws => String a w :: ws
           | [] => [String a EmptyString]
           end
  end.

(** Longest prefix of [s] without a character satisfying [stop], and what
    follows it (starting at the stopping character). *)
Fixpoint span_until (stop : ascii -> bool) (s : string) : string * string :=
  match s with
  | EmptyString => (EmptyString, EmptyString)
  | String a s' =>
      if stop a then (EmptyString, s)
      else let '(h, t) := span_until stop s' in (String a h, t)
  end.

(** [str(n)] for an [int]. *)
Definition str_int (n : Z) : string := NilZero.string_of_int (Z.to_int n).

(* ===================================================================== *)
(** * File system and [pathlib]                                           *)
(* ===================================================================== *)

(** What a file holds: raw bytes, or the wave container that
    [scipy.io.wavfile.write] produces for a sample rate and a sample array
    (the byte layout of the container is not unfolded). *)
Inductive tensor := Tensor (data : list Z).

Inductive content :=
  | Bytes (s : string)
  | Wave (rate : Z) (samples : tensor).

Inductive node :=
  | File (data : content)
  | Dir
  | Link (target : string).

Global Instance tensor_eq_dec : EqDecision tensor.
Proof. solve_decision. Defined.
Global Instance content_eq_dec : EqDecision content.
Proof. solve_decision. Defined.
Global Instance node_eq_dec : EqDecision node.
Proof. solve_decision. Defined.

(** [os.readlink] guarded by [S_ISLNK(os.lstat(p))]. *)
Definition readlink (fs : gmap (list string) node) (p : list string) : option string :=
  match fs !! p with
  | Some (Link t) => Some t
  | _ => None
  end.

Definition is_link (kv : list string * node) : Prop :=
  match kv.2 with
  | Link _ => True
  | _ => False
  end.

Global Instance is_link_dec kv : Decision (is_link kv).
Proof. unfold is_link. destruct (kv.2); apply _. Defined.

Definition num_links (fs : gmap (list string) node) : nat := size (filter is_link fs).

(** Components of a path string as [pathlib] keeps them: empty components
    and [.] are dropped, [..] is kept. *)
Definition is_skipped (name : string) : bool :=
  bool_decide (name = "") || bool_decide (name = ".").

Definition path_parts (s : string) : list string :=
  List.filter (fun name => negb (is_skipped name)) (split_on "/" s).

(** [PurePath(s).name]: the final component, [""] when there is none. *)
Definition Path_name (s : string) : string := List.last (path_parts s) "".

(** [base.joinpath(s)] for an absolute [base]: an absolute [s] replaces it. *)
Definition joinpath (base : list string) (s : string) : list string :=
  if startswith s "/" then path_parts s else base ++ path_parts s.

(** [os.path.split(path)[0]]: the root is its own parent. *)
Definition parent (p : list string) : list string := removelast p.

(** [p.parents]: the proper ancestors of [p], nearest first, the root last. *)
Definition parents (p : list string) : list (list string) :=
  (fun n => take n p) <$> reverse (seq 0 (length p)).

(** [p.is_relative_to(other)], which pathlib computes as
    [other == p or other in p.parents]. *)
Definition is_relative_to (p other : list string) : bool :=
  bool_decide (other = p) || bool_decide (other ∈ parents p).

(** [os.path.realpath] in non-strict mode, the way [posixpath._joinrealpath]
    walks: [path] is the part resolved so far, [rest] the components still
    to visit.  [walk] is the loop over the components; [follow newpath path
    target] resolves the link found at [newpath], whose text is [target],
    from [path]. *)
Fixpoint walk (follow : list string -> list string -> string -> option (list string))
    (fs : gmap (list string) node) (path rest : list string)
    : option (list string) :=
  match rest with
  | [] => Some path
  | name :: rest' =>
      if is_skipped name then walk follow fs path rest'
      else if bool_decide (name = "..") then walk follow fs (parent path) rest'
      else
        let newpath := path ++ [name] in
        match readlink fs newpath with
        | None => walk follow fs newpath rest'
        | Some target =>
            match follow newpath path target with
            | Some path' => walk follow fs path' rest'
            | None => None
            end
        end
  end.

(** [seen] holds the links whose resolution is in progress.  A link that is
    met again while in progress is a loop: [realpath] gives up there and the
    [stat] that [Path.resolve] performs afterwards fails with [ELOOP], which
    is [None] here.  [fuel] bounds the nesting of link resolutions;
    [realpath] supplies one more than the number of links there are. *)
Fixpoint joinrealpath (fuel : nat) (fs : gmap (list string) node)
    (seen : list (list string)) (path rest : list string) {struct fuel}
    : option (list string) :=
  match fuel with
  | O => None
  | S fuel' =>
      walk (fun newpath path target =>
              if bool_decide (newpath ∈ seen) then None
              else joinrealpath fuel' fs (newpath :: seen)
                     (if startswith target "/" then [] else path)
                     (split_on "/" target))
           fs path rest
  end.

Definition realpath (fs : gmap (list string) node) (p : list string) : option (list string) :=
  joinrealpath (S (num_links fs)) fs [] [] p.

(** The NUL character, which no system call accepts in a path. *)
Definition has_nul (p : list string) : bool :=
  existsb (contains_char "000"%char) p.

(** [Path.resolve()] (CPython 3.9 to 3.12): [ValueError] on an embedded NUL,
    [RuntimeError] on a link loop, the real path otherwise. *)
Definition Path_resolve (fs : gmap (list string) node) (p : list string)
    : result (list string) :=
  if has_nul p then Raise (Exn ValueError "embedded null byte")
  else match realpath fs p with
       | Some r => Ok r
       | None => Raise (Exn RuntimeError "Symlink loop")
       end.

(** [os.stat]: the node the path leads to after following links; every
    failure is [None]. *)
Definition stat (fs : gmap (list string) node) (p : list string) : option node :=
  if has_nul p then None
  else match realpath fs p with
       | Some r => fs !! r
       | None => None
       end.

(** [Path.is_file()]: a regular file, links followed, failures are [False]. *)
Definition Path_is_file (fs : gmap (list string) node) (p : list string) : bool :=
  match stat fs p with
  | Some (File _) => true
  | _ => false
  end.

(** [Path.unlink()]: removes the directory entry itself. *)
Definition Path_unlink (fs : gmap (list string) node) (p : list string)
    : result (gmap (list string) node) :=
  match fs !! p with
  | None => Raise (Exn FileNotFoundError "No such file or directory")
  | Some Dir => Raise (Exn IsADirectoryError "Is a directory")
  | Some _ => Ok (delete p fs)
  end.

(* ===================================================================== *)
(** * [urllib.parse.urlparse]                                             *)
(* ===================================================================== *)

(** The fields of [ParseResult] (CPython 3.12).  Two checks that can only
    turn a parse into a [ValueError] are left out: the NFKC check of a
    non-ASCII authority and the validation of a bracketed IPv6 literal once
    both brackets are present. *)
Record ParseResult := {
  scheme : string;
  netloc : string;
  path : string;
  params : string;
  query : string;
  fragment : string
}.

Definition code_between (lo hi : nat) (a : ascii) : bool :=
  (lo <=? nat_of_ascii a)%nat && (nat_of_ascii a <=? hi)%nat.

Definition is_alpha (a : ascii) : bool := code_between 65 90 a || code_between 97 122 a.
Definition is_digit (a : ascii) : bool := code_between 48 57 a.

(** [scheme_chars]: letters, digits, [+], [-] and [.]. *)
Definition is_scheme_char (a : ascii) : bool :=
  is_alpha a || is_digit a || contains_char a "+-.".

(** [_WHATWG_C0_CONTROL_OR_SPACE] and [_UNSAFE_URL_BYTES_TO_REMOVE]. *)
Definition is_c0_or_space (a : ascii) : bool := code_between 0 32 a.
Definition is_unsafe_url_byte (a : ascii) : bool :=
  bool_decide (nat_of_ascii a = 9) || bool_decide (nat_of_ascii a = 10)
  || bool_decide (nat_of_ascii a = 13).

Fixpoint lstrip (strip : ascii -> bool) (s : string) : string :=
  match s with
  | EmptyString => EmptyString
  | String a s' => if strip a then lstrip strip s' else s
  end.

Fixpoint remove_chars (drop : ascii -> bool) (s : string) : string :=
  match s with
  | EmptyString => EmptyString
  | String a s' => if drop a then remove_chars drop s' else String a (remove_chars drop s')
  end.

Fixpoint forall_chars (ok : ascii -> bool) (s : string) : bool :=
  match s with
  | EmptyString => true
  | String a s' => ok a && forall_chars ok s'
  end.

Definition lower_char (a : ascii) : ascii :=
  if code_between 65 90 a then ascii_of_nat (nat_of_ascii a + 32) else a.

Fixpoint lower (s : string) : string :=
  match s with
  | EmptyString => EmptyString
  | String a s' => String (lower_char a) (lower s')
  end.

(** [s[1:]] *)
Definition tail (s : string) : string :=
  match s with
  | EmptyString => EmptyString
  | String _ s' => s'
  end.

(** The scheme step of [urlsplit]: a [:] at a positive index, preceded by a
    letter and then scheme characters only, ends the scheme. *)
Definition split_scheme (url : string) : string * string :=
  let '(h, t) := span_until (Ascii.eqb ":") url in
  match h, t with
  | String a _, String _ t' =>
      if is_alpha a && forall_chars is_scheme_char h then (lower h, t') else ("", url)
  | _, _ => ("", url)
  end.

(** [_splitnetloc(url, 2)] *)
Definition splitnetloc (url : string) : string * string :=
  span_until (fun a => contains_char a "/?#") (tail (tail url)).

(** [url.split(c, 1)] when [c in url], else [(url, "")]. *)
Definition split_first (c : ascii) (url : string) : string * string :=
  let '(h, t) := span_until (Ascii.eqb c) url in (h, tail t).

(** [_splitparams]: the path is cut at the first [;] that follows the last
    [/]; the parameters are what comes after that [;]. *)
Fixpoint params_of (url : string) : string :=
  match url with
  | EmptyString => EmptyString
  | String a url' =>
      if contains_char "/" url then params_of url'
      else if Ascii.eqb a ";" then url'
      else params_of url'
  end.

Fixpoint strip_params (url : string) : string :=
  match url with
  | EmptyString => EmptyString
  | String a url' =>
      if contains_char "/" url then String a (strip_params url')
      else if Ascii.eqb a ";" then EmptyString
      else String a (strip_params url')
  end.

Definition uses_params : list string :=
  [""; "ftp"; "hdl"; "prospero"; "http"; "imap"; "https"; "shttp"; "rtsp";
   "rtsps"; "rtspu"; "sip"; "sips"; "mms"; "sftp"; "tel"].

Definition urlparse_str (url0 : string) : result ParseResult :=
  let url := remove_chars is_unsafe_url_byte (lstrip is_c0_or_space url0) in
  let '(sch, url) := split_scheme url in
  let '(loc, url) := if startswith url "//" then splitnetloc url else ("", url) in
  if (contains_char "[" loc && negb (contains_char "]" loc))
     || (contains_char "]" loc && negb (contains_char "[" loc))
  then Raise (Exn ValueError "Invalid IPv6 URL")
  else
    let '(url, frag) := split_first "#" url in
    let '(url, qry) := split_first "?" url in
    let pth := if bool_decide (sch ∈ uses_params) then strip_params url else url in
    let prm := if bool_decide (sch ∈ uses_params) then params_of url else "" in
    Ok {| scheme := sch; netloc := loc; path := pth;
          params := prm; query := qry; fragment := frag |}.

(** [urlparse(v)]: anything that is not a [str] has no [decode]. *)
Definition urlparse (v : value) : result ParseResult :=
  match v with
  | VStr url => urlparse_str url
  | _ => Raise (Exn AttributeError "object has no attribute 'decode'")
  end.

(* ===================================================================== *)
(** * [config.py]                                                         *)
(* ===================================================================== *)

(** The module constants the rest of the program imports.
    [TEMP_AUDIO_DIR] is [BASE_DIR / "temp_audio"], an absolute path. *)
Record Config := {
  HTTP_HOST : string;
  HTTP_PORT : Z;
  TEMP_AUDIO_DIR : list string
}.

Definition KOKORO_SAMPLE_RATE : Z := 24000.

(* ===================================================================== *)
(** * [http_server.py]                                                    *)
(* ===================================================================== *)

(** What a Flask view can hand back here: [return body, status], an
    [abort(status)] rendered as werkzeug's page for that status, or the
    response built by [send_file] for the file it opened. *)
Inductive response :=
  | Plain (body : string) (status : Z)
  | Abort (status : Z)
  | SendFile (opened : list string) (data : content)
             (mimetype : string) (as_attachment : bool).

Definition status_code (r : response) : Z :=
  match r with
  | Plain _ st => st
  | Abort st => st
  | SendFile _ _ _ _ => 200
  end.

Definition backslash : string := String (ascii_of_nat 92) EmptyString.

(** [posixpath.normpath] on a relative name, as a component list; [None]
    when the name is absolute or climbs above its start, the cases in which
    [werkzeug.security.safe_join] returns [None]. *)
Fixpoint normparts (acc : list string) (comps : list string) : option (list string) :=
  match comps with
  | [] => Some acc
  | c :: comps' =>
      if is_skipped c then normparts acc comps'
      else if bool_decide (c = "..") then
        match acc with
        | [] => None
        | _ :: _ => normparts (removelast acc) comps'
        end
      else normparts (acc ++ [c]) comps'
  end.

Definition safe_join (directory : list string) (name : string) : option (list string) :=
  if startswith name "/" then None
  else match normparts [] (split_on "/" name) with
       | Some comps => Some (directory ++ comps)
       | None => None
       end.

(** [werkzeug.utils.send_from_directory] followed by [send_file]. *)
Definition send_from_directory (fs : gmap (list string) node)
    (directory : list string) (name : string)
    (mimetype : string) (as_attachment : bool) : result response :=
  match safe_join directory name with
  | None => Raise (Exn NotFound "404 Not Found")
  | Some p =>
      match stat fs p with
      | Some (File data) => Ok (SendFile p data mimetype as_attachment)
      | _ => Raise (Exn NotFound "404 Not Found")
      end
  end.

(** The body of the [try] in [serve_audio]. *)
Definition serve_audio_try (cfg : Config) (fs : gmap (list string) node)
    (filename : string) : result response :=
  requested_path ← Path_resolve fs (joinpath (TEMP_AUDIO_DIR cfg) filename);
  if negb (Path_is_file fs requested_path) then Ok (Plain "Not Found" 404)
  else
    base ← Path_resolve fs (TEMP_AUDIO_DIR cfg);
    if negb (bool_decide (base ∈ parents requested_path))
    then Ok (Plain "Not Found" 404)
    else
      directory ← Path_resolve fs (TEMP_AUDIO_DIR cfg);
      send_from_directory fs directory (List.last requested_path "") "audio/wav" false.

(** The two [except] clauses of [serve_audio]. *)
Definition serve_audio_except (e : exn) : response :=
  if isinstance e FileNotFoundError then Abort 404
  else Abort 500.

(** [serve_audio(filename)], the view of [GET /audio/<path:filename>]. *)
Definition serve_audio (cfg : Config) (fs : gmap (list string) node)
    (filename : string) : response :=
  if startswith filename "/" || startswith filename backslash
  then Plain "Not Found" 404
  else if startswith filename "%2F" || startswith filename "%5C"
  then Plain "Not Found" 404
  else
    match serve_audio_try cfg fs filename with
    | Ok r => r
    | Raise e => serve_audio_except e
    end.

(* ===================================================================== *)
(** * Process state                                                       *)
(* ===================================================================== *)

(** Calls that leave the tool layer, in the order they are made. *)
Inductive call :=
  | CallGenerateSpeechAudio (text voice_id : value) (speed : pyfloat)
  | CallLoadVoice (voice_id : string)
  | CallPipeline (text : value) (voice_id : string) (speed : pyfloat)
  | CallNextSegment
  | CallModel (ps : string) (ref_s : tensor) (speed : pyfloat)
  | CallMkstemp (dir : list string)
  | CallWriteWav (p : list string).

(** The mutable surroundings of a request: the file system, the draws of
    [tempfile]'s random name sequence ([choices n k] is the index drawn for
    the [k]-th character of the [n]-th name) with the number of names
    already taken, and the trace of calls. *)
Record World := {
  fs : gmap (list string) node;
  choices : nat -> nat -> nat;
  drawn : nat;
  trace : list call
}.

Definition set_fs (w : World) (fs' : gmap (list string) node) : World :=
  {| fs := fs'; choices := choices w; drawn := drawn w; trace := trace w |}.

Definition emit (c : call) (w : World) : World :=
  {| fs := fs w; choices := choices w; drawn := drawn w; trace := trace w ++ [c] |}.

Definition draw (w : World) : World :=
  {| fs := fs w; choices := choices w; drawn := S (drawn w); trace := trace w |}.

(* ===================================================================== *)
(** * [tempfile.mkstemp] and [scipy.io.wavfile.write]                      *)
(* ===================================================================== *)

(** [_RandomNameSequence.characters] *)
Definition characters : string := "abcdefghijklmnopqrstuvwxyz0123456789_".

Definition character (i : nat) : ascii :=
  match String.get (i mod 37) characters with
  | Some a => a
  | None => "_"%char
  end.

(** The [n]-th name of the sequence: eight characters. *)
Definition candidate_name (w : World) (n : nat) : string :=
  string_of_list_ascii (List.map (fun k => character (choices w n k)) (seq 0 8)).

Definition TMP_MAX : nat := 100 * 100.

(** [os.open(dir/name, O_RDWR | O_CREAT | O_EXCL | O_NOFOLLOW)] then
    [os.close]: the directory is reached through links, the entry itself
    must not exist in any form. *)
Definition os_open_excl (fs : gmap (list string) node) (dir : list string)
    (name : string) : result (gmap (list string) node) :=
  match realpath fs dir with
  | None => Raise (Exn OSError "Too many levels of symbolic links")
  | Some d =>
      match fs !! d with
      | Some Dir =>
          match fs !! (d ++ [name]) with
          | Some _ => Raise (Exn FileExistsError "File exists")
          | None => Ok (<[d ++ [name] := File (Bytes "")]> fs)
          end
      | Some _ => Raise (Exn NotADirectoryError "Not a directory")
      | None => Raise (Exn FileNotFoundError "No such file or directory")
      end
  end.

(** [tempfile._mkstemp_inner]: up to [TMP_MAX] names are tried, a name that
    exists is skipped, any other failure is raised. *)
Fixpoint mkstemp_inner (tries : nat) (dir : list string) (pre suf : string)
    (w : World) : result (list string) * World :=
  match tries with
  | O => (Raise (Exn FileExistsError "No usable temporary file name found"), w)
  | S tries' =>
      let name := pre +:+ candidate_name w (drawn w) +:+ suf in
      let w1 := draw w in
      match os_open_excl (fs w1) dir name with
      | Ok fs' => (Ok (dir ++ [name]), set_fs w1 fs')
      | Raise e =>
          if isinstance e FileExistsError then mkstemp_inner tries' dir pre suf w1
          else (Raise e, w1)
      end
  end.

(** [tempfile.mkstemp(suffix=suf, dir=dir)]; the default prefix is ["tmp"]. *)
Definition mkstemp (suf : string) (dir : list string) (w : World)
    : result (list string) * World :=
  mkstemp_inner TMP_MAX dir "tmp" suf (emit (CallMkstemp dir) w).

(** [write_wav(p, rate, data)]: [open(p, "wb")] follows links, truncates or
    creates the file and the wave container is written into it. *)
Definition write_wav (p : list string) (rate : Z) (data : tensor) (w : World)
    : result unit * World :=
  let w1 := emit (CallWriteWav p) w in
  match realpath (fs w1) p with
  | None => (Raise (Exn OSError "Too many levels of symbolic links"), w1)
  | Some r =>
      match fs w1 !! r, fs w1 !! parent r with
      | Some Dir, _ => (Raise (Exn IsADirectoryError "Is a directory"), w1)
      | _, Some Dir => (Ok tt, set_fs w1 (<[r := File (Wave rate data)]> (fs w1)))
      | _, _ => (Raise (Exn FileNotFoundError "No such file or directory"), w1)
      end
  end.

(* ===================================================================== *)
(** * [kokoro_service.py]                                                 *)
(* ===================================================================== *)

(** The engine is outside the program.  A pipeline is known by what
    [load_voice] returns (the voice pack, indexable by token count) and by
    what the generator it returns for a text yields: the list holds the
    outcome of each successive [next()], the phoneme string of a segment or
    the exception raised while producing it; the end of the list is the end
    of the iteration.  A model maps phonemes, a speaker embedding and a
    speed to the samples already moved to the CPU as an array. *)
Record KPipeline := {
  load_voice : string -> result (list tensor);
  segments : value -> string -> pyfloat -> list (result string)
}.

Definition KModel : Type := string -> tensor -> pyfloat -> result tensor.

(** The module globals [_kokoro_model], [_available_voices] (a [dict], in
    insertion order) and [_kokoro_pipelines] (keyed by language code). *)
Record Service := {
  kokoro_model : option KModel;
  available_voices : list (string * string);
  kokoro_pipelines : gmap string KPipeline
}.

(** [str(v)] inside an f-string. *)
Definition str_value (v : value) : string :=
  match v with
  | VNone => "None"
  | VBool true => "True"
  | VBool false => "False"
  | VInt z => str_int z
  | VFloat (Float r) => r
  | VStr s => s
  end.

(** [k in d] for a [dict] with [str] keys. *)
Definition dict_has {A} (d : list (string * A)) (k : value) : bool :=
  match k with
  | VStr s => bool_decide (s ∈ d.*1)
  | _ => false
  end.

(** [seq[i]] with Python's negative indices. *)
Definition py_index {A} (l : list A) (i : Z) : result A :=
  let j := if (i <? 0)%Z then (i + Z.of_nat (length l))%Z else i in
  if (j <? 0)%Z then Raise (Exn IndexError "index out of range")
  else match l !! Z.to_nat j with
       | Some a => Ok a
       | None => Raise (Exn IndexError "index out of range")
       end.

(** The loop [for _, ps, _ in pipeline(text, voice_id, speed): ...; break]:
    [audio_data] after it, [None] when the body never ran. *)
Definition first_segment (model : KModel) (pack : list tensor)
    (gen : list (result string)) (voice_id : string) (speed : pyfloat) (w : World)
    : result (option tensor) * World :=
  let w1 := emit CallNextSegment w in
  match gen with
  | [] => (Ok None, w1)
  | Raise e :: _ => (Raise e, w1)
  | Ok ps :: _ =>
      match py_index pack (Z.of_nat (String.length ps) - 1) with
      | Raise e => (Raise e, w1)
      | Ok ref_s =>
          let w2 := emit (CallModel ps ref_s speed) w1 in
          match model ps ref_s speed with
          | Raise e => (Raise e, w2)
          | Ok audio_data => (Ok (Some audio_data), w2)
          end
      end
  end.

(** The body of the [try] in [generate_speech_audio]. *)
Definition generate_speech_audio_try (cfg : Config) (model : KModel)
    (pipeline : KPipeline) (text : value) (voice_id : string) (speed : pyfloat)
    (w : World) : result (list string) * World :=
  let w1 := emit (CallLoadVoice voice_id) w in
  match load_voice pipeline voice_id with
  | Raise e => (Raise e, w1)
  | Ok pack =>
      let w2 := emit (CallPipeline text voice_id speed) w1 in
      match first_segment model pack (segments pipeline text voice_id speed)
              voice_id speed w2 with
      | (Raise e, w3) => (Raise e, w3)
      | (Ok None, w3) =>
          (Raise (Exn ValueError "Failed to generate any audio segments from the input."), w3)
      | (Ok (Some audio_data), w3) =>
          match mkstemp ".wav" (TEMP_AUDIO_DIR cfg) w3 with
          | (Raise e, w4) => (Raise e, w4)
          | (Ok temp_path, w4) =>
              match write_wav temp_path KOKORO_SAMPLE_RATE audio_data w4 with
              | (Raise e, w5) => (Raise e, w5)
              | (Ok _, w5) => (Ok temp_path, w5)
              end
          end
      end
  end.

(** [generate_speech_audio(text, voice_id, speed)] *)
Definition generate_speech_audio (cfg : Config) (svc : Service)
    (text voice_id : value) (speed : pyfloat) (w : World)
    : result (list string) * World :=
  let w0 := emit (CallGenerateSpeechAudio text voice_id speed) w in
  match kokoro_model svc with
  | None => (Raise (Exn RuntimeError "Kokoro model not initialized."), w0)
  | Some model =>
      if negb (dict_has (available_voices svc) voice_id)
      then (Raise (Exn ValueError ("Invalid voice_id: " +:+ str_value voice_id)), w0)
      else
        match voice_id with
        | VStr (String c _ as v) =>
            let lang_code := String c EmptyString in
            match kokoro_pipelines svc !! lang_code with
            | None =>
                (Raise (Exn RuntimeError
                   ("Internal error: Pipeline missing for language code " +:+ lang_code)), w0)
            | Some pipeline =>
                match generate_speech_audio_try cfg model pipeline text v speed w0 with
                | (Ok temp_path, w') => (Ok temp_path, w')
                | (Raise e, w') =>
                    if isinstance e KeyError
                    then (Raise (Exn ValueError ("Invalid voice_id: " +:+ v)), w')
                    else (Raise (Exn RuntimeError
                            ("Audio generation failed: " +:+ str_exn e)), w')
                end
            end
        | _ => (Raise (Exn IndexError "string index out of range"), w0)
        end
  end.

(** [get_voice_list()] *)
Definition get_voice_list (svc : Service) : list (string * string) :=
  available_voices svc.

(* ===================================================================== *)
(** * [main.py]: the tools                                                *)
(* ===================================================================== *)

(** What a tool returns: [{"voices": [{"id":…, "name":…}, …]}],
    [{"audio_uri":…, "format":…}], [{"success": True}] or
    [{"success": False, "error":…}]. *)
Inductive tool_result :=
  | Voices (voices : list (string * string))
  | Speech (audio_uri format : string)
  | Success
  | Failure (error : string).

(** [list_voices_tool()] *)
Definition list_voices_tool (svc : Service) (w : World)
    : result tool_result * World :=
  (Ok (Voices (get_voice_list svc)), w).

(** [float(x)].  Reading a number from text and rounding an integer are the
    runtime's: [float_of_str] is [None] where [float] raises [ValueError],
    [float_of_int] where it raises [OverflowError]. *)
Record FloatOps := {
  float_of_str : string -> option pyfloat;
  float_of_int : Z -> option pyfloat
}.

Definition py_float (ops : FloatOps) (x : value) : result pyfloat :=
  match x with
  | VFloat f => Ok f
  | VBool b => Ok (Float (if b then "1.0" else "0.0"))
  | VInt z =>
      match float_of_int ops z with
      | Some f => Ok f
      | None => Raise (Exn OverflowError "int too large to convert to float")
      end
  | VStr s =>
      match float_of_str ops s with
      | Some f => Ok f
      | None => Raise (Exn ValueError ("could not convert string to float: '" +:+ s +:+ "'"))
      end
  | VNone =>
      Raise (Exn TypeError "float() argument must be a string or a real number, not 'NoneType'")
  end.

(** The URI that [generate_speech_tool] builds for a file name. *)
Definition audio_uri_of (cfg : Config) (name : string) : string :=
  "http://" +:+ HTTP_HOST cfg +:+ ":" +:+ str_int (HTTP_PORT cfg) +:+ "/audio/" +:+ name.

(** The body of the [try] in [generate_speech_tool]. *)
Definition generate_speech_try (cfg : Config) (ops : FloatOps) (svc : Service)
    (text voice_id speed : value) (w : World) : result tool_result * World :=
  match py_float ops speed with
  | Raise e => (Raise e, w)
  | Ok speed_float =>
      match generate_speech_audio cfg svc text voice_id speed_float w with
      | (Raise e, w') => (Raise e, w')
      | (Ok temp_file_path, w') =>
          (Ok (Speech (audio_uri_of cfg (List.last temp_file_path "")) "wav"), w')
      end
  end.

(** [generate_speech_tool(text, voice_id, speed=1.0)] *)
Definition generate_speech_tool (cfg : Config) (ops : FloatOps) (svc : Service)
    (text voice_id speed : value) (w : World) : result tool_result * World :=
  if negb (truthy text) || negb (truthy voice_id)
  then (Raise (Exn ValueError "Missing required arguments: text and voice_id"), w)
  else
    match generate_speech_try cfg ops svc text voice_id speed w with
    | (Ok r, w') => (Ok r, w')
    | (Raise e, w') =>
        if isinstance e ValueError || isinstance e RuntimeError
           || isinstance e FileNotFoundError
        then (Raise (Exn MockMCPServerError (str_exn e)), w')
        else (Raise (Exn MockMCPServerError
                "Internal server error during speech generation."), w')
    end.

(** The security check of [cleanup_audio_tool], with its own [try]:
    a [RuntimeError] of the resolution becomes a [ValueError]. *)
Definition cleanup_resolve (cfg : Config) (fs : gmap (list string) node)
    (file_path : list string) : result (list string) :=
  match (resolved_path ← Path_resolve fs file_path;
         base ← Path_resolve fs (TEMP_AUDIO_DIR cfg);
         if negb (is_relative_to resolved_path base)
         then Raise (Exn ValueError "Invalid audio URI (path mismatch)")
         else Ok resolved_path) with
  | Ok resolved_path => Ok resolved_path
  | Raise e =>
      if isinstance e RuntimeError
      then Raise (Exn ValueError
             ("Invalid audio URI (path resolution failed): " +:+ str_exn e))
      else Raise e
  end.

(** The body of the outer [try] in [cleanup_audio_tool]. *)
Definition cleanup_audio_try (cfg : Config) (audio_uri : value) (w : World)
    : result tool_result * World :=
  match urlparse audio_uri with
  | Raise e => (Raise e, w)
  | Ok parsed_uri =>
      if negb (forallb (fun s => negb (bool_decide (s = "")))
                 [scheme parsed_uri; netloc parsed_uri; path parsed_uri])
      then (Raise (Exn ValueError "Invalid audio URI format"), w)
      else
        let filename := Path_name (path parsed_uri) in
        if bool_decide (filename = "")
        then (Raise (Exn ValueError "Could not extract filename from URI path"), w)
        else
          let file_path := joinpath (TEMP_AUDIO_DIR cfg) filename in
          match cleanup_resolve cfg (fs w) file_path with
          | Raise e => (Raise e, w)
          | Ok resolved_path =>
              if Path_is_file (fs w) resolved_path then
                match Path_unlink (fs w) resolved_path with
                | Raise e => (Raise e, w)
                | Ok fs' => (Ok Success, set_fs w fs')
                end
              else (Ok (Failure "File not found at specified URI"), w)
          end
  end.

(** [cleanup_audio_tool(audio_uri)] *)
Definition cleanup_audio_tool (cfg : Config) (audio_uri : value) (w : World)
    : result tool_result * World :=
  if negb (truthy audio_uri)
  then (Raise (Exn ValueError "Missing required argument: audio_uri"), w)
  else
    match cleanup_audio_try cfg audio_uri w with
    | (Ok r, w') => (Ok r, w')
    | (Raise e, w') =>
        if isinstance e ValueError
        then (Raise (Exn MockMCPServerError ("Cleanup failed: " +:+ str_exn e)), w')
        else (Raise (Exn MockMCPServerError ("Cleanup failed: " +:+ str_exn e)), w')
    end.

(* ===================================================================== *)
(** * [main.py]: the dispatcher                                           *)
(* ===================================================================== *)

(** The [params] member of a request: a list, a dict, or something else. *)
Inductive Params :=
  | PList (args : list value)
  | PDict (kwargs : list (string * value))
  | PScalar (v : value).

(** A request: [request.get("method")], [request.get("params", {})] and
    [request.get("id")]; a missing member reads as [None] ([VNone]), a
    missing [params] as the empty dict. *)
Record Request := {
  req_method : value;
  req_params : option Params;
  req_id : value
}.

(** [{"jsonrpc": "2.0", "result": …, "id": …}] or
    [{"jsonrpc": "2.0", "error": {"code": …, "message": …}, "id": …}]. *)
Inductive Reply :=
  | Result (r : tool_result) (id : value)
  | Error (code : Z) (message : string) (id : value).

(** A registered tool: its parameters, each with its default if it has one,
    and its body on the bound arguments. *)
Record Tool := {
  tool_params : list (string * option value);
  tool_body : list value -> World -> result tool_result * World
}.

(** A call with an unpacked list: arguments fill the parameters from the
    left, defaults fill the rest. *)
Fixpoint bind_positional (sig : list (string * option value)) (args : list value)
    : result (list value) :=
  match sig, args with
  | [], [] => Ok []
  | [], _ :: _ => Raise (Exn TypeError "too many positional arguments")
  | (_, dflt) :: sig', [] =>
      match dflt with
      | Some d => vs ← bind_positional sig' []; Ok (d :: vs)
      | None => Raise (Exn TypeError "missing a required positional argument")
      end
  | _ :: sig', a :: args' => vs ← bind_positional sig' args'; Ok (a :: vs)
  end.

Definition dict_get {A} (d : list (string * A)) (k : string) : option A :=
  (list_find (fun kv => kv.1 = k) d) ≫= fun r => Some r.2.2.

(** A call with an unpacked dict: every key must name a parameter, every
    parameter without a default must be given. *)
Fixpoint bind_keywords (sig : list (string * option value))
    (kwargs : list (string * value)) : result (list value) :=
  match sig with
  | [] => Ok []
  | (name, dflt) :: sig' =>
      match dict_get kwargs name, dflt with
      | Some a, _ => vs ← bind_keywords sig' kwargs; Ok (a :: vs)
      | None, Some d => vs ← bind_keywords sig' kwargs; Ok (d :: vs)
      | None, None => Raise (Exn TypeError "missing a required positional argument")
      end
  end.

Definition call_with_keywords (sig : list (string * option value))
    (kwargs : list (string * value)) : result (list value) :=
  if negb (forallb (fun kv => bool_decide (kv.1 ∈ sig.*1)) kwargs)
  then Raise (Exn TypeError "got an unexpected keyword argument")
  else bind_keywords sig kwargs.

(** The three tools registered on [mcp_server], as [self._tools]. *)
Definition tools (cfg : Config) (ops : FloatOps) (svc : Service) (name : value)
    : option Tool :=
  match name with
  | VStr "list_voices" =>
      Some {| tool_params := [];
              tool_body := fun _ w => list_voices_tool svc w |}
  | VStr "generate_speech" =>
      Some {| tool_params := [("text", None); ("voice_id", None);
                              ("speed", Some (VFloat (Float "1.0")))];
              tool_body := fun args w =>
                match args with
                | [text; voice_id; speed] =>
                    generate_speech_tool cfg ops svc text voice_id speed w
                | _ => (Raise (Exn TypeError "wrong number of arguments"), w)
                end |}
  | VStr "cleanup_audio" =>
      Some {| tool_params := [("audio_uri", None)];
              tool_body := fun args w =>
                match args with
                | [audio_uri] => cleanup_audio_tool cfg audio_uri w
                | _ => (Raise (Exn TypeError "wrong number of arguments"), w)
                end |}
  | _ => None
  end.

(** How [_handle_request] passes [params] to the tool: a list is unpacked
    into positional arguments, a dict into keyword arguments, anything else
    is refused. *)
Definition bind_params (sig : list (string * option value)) (params : Params)
    : result (list value) :=
  match params with
  | PList args => bind_positional sig args
  | PDict kwargs => call_with_keywords sig kwargs
  | PScalar _ => Raise (Exn MockMCPServerError "Invalid params format")
  end.

(** The call inside the [try] of [_handle_request]. *)
Definition call_tool (tool : Tool) (params : Params) (w : World)
    : result tool_result * World :=
  match bind_params (tool_params tool) params with
  | Ok vs => tool_body tool vs w
  | Raise e => (Raise e, w)
  end.

(** The [except Exception] clause of [_handle_request]. *)
Definition error_of (tool_name : value) (e : exn) : Z * string :=
  let error_code := (-32000)%Z in
  let error_message :=
    "Error in tool '" +:+ str_value tool_name +:+ "': " +:+ str_exn e in
  if isinstance e ValueError then ((-32602)%Z, error_message)
  else if isinstance e MockMCPServerError then (error_code, str_exn e)
  else (error_code, error_message).

(** [MockMCPServer._handle_request(request)] *)
Definition handle_request (cfg : Config) (ops : FloatOps) (svc : Service)
    (request : Request) (w : World) : Reply * World :=
  let tool_name := req_method request in
  let params := default (PDict []) (req_params request) in
  match tools cfg ops svc tool_name with
  | Some tool =>
      match call_tool tool params w with
      | (Ok result, w') => (Result result (req_id request), w')
      | (Raise e, w') =>
          let '(error_code, error_message) := error_of tool_name e in
          (Error error_code error_message (req_id request), w')
      end
  | None =>
      (Error (-32601) ("Method not found: " +:+ str_value tool_name)
         (req_id request), w)
  end.

(* ===================================================================== *)
(** * [config.py]: environment and device                                 *)
(* ===================================================================== *)

(** The values python-dotenv reads from a file: its bindings in order, each
    with its value as the library has parsed and expanded it, a name
    without [=] having no value; a later binding of a name replaces an
    earlier one. *)
Definition dotenv_values (bindings : list (string * option string))
    : gmap string (option string) :=
  foldl (fun d kv => <[kv.1 := kv.2]> d) ∅ bindings.

(** [load_dotenv(dotenv_path=..., override=True)] on [os.environ]: a file
    that is not there changes nothing; otherwise every name that has a
    value is set, whether or not the environment had it. *)
Definition load_dotenv (file : option (list (string * option string)))
    (environ : gmap string string) : gmap string string :=
  match file with
  | None => environ
  | Some bindings => omap id (dotenv_values bindings) ∪ environ
  end.

(** The two loads of the module: [.env.test] first, then [.env]. *)
Definition load_environment (env_test env_main : option (list (string * option string)))
    (environ : gmap string string) : gmap string string :=
  load_dotenv env_main (load_dotenv env_test environ).

(** [os.getenv("HTTP_HOST", "127.0.0.1")] and [os.getenv("KOKORO_DEVICE")]. *)
Definition config_HTTP_HOST (environ : gmap string string) : string :=
  default "127.0.0.1" (environ !! "HTTP_HOST").

Definition KOKORO_DEVICE_ENV (environ : gmap string string) : option string :=
  environ !! "KOKORO_DEVICE".

(** What [torch] reports: [torch.cuda.is_available()], whether
    [torch.backends] has [mps], [torch.backends.mps.is_available()], and
    whether [torch.zeros(1, device='mps')] runs without an exception. *)
Record Torch := {
  cuda_is_available : bool;
  has_mps : bool;
  mps_is_available : bool;
  mps_zeros_ok : bool
}.

(** [determine_device()] *)
Definition determine_device (device_env : option string) (torch : Torch) : string :=
  if match device_env with
     | Some e =>
         negb (bool_decide (e = ""))
         && bool_decide (lower e ∈ ["cuda"; "cpu"; "mps"])
     | None => false
     end
  then lower (default "" device_env)
  else if cuda_is_available torch then "cuda"
  else if has_mps torch && mps_is_available torch
  then (if mps_zeros_ok torch then "mps" else "cpu")
  else "cpu".

(* ===================================================================== *)
(** * [kokoro_service.py]: initialisation                                 *)
(* ===================================================================== *)

(** What the kokoro library does when asked: [KModel().to(device).eval()],
    [get_voices()], [KPipeline(lang_code=..., model=False)], and the
    assignment of a pronunciation of [kokoro] in a pipeline's lexicon. *)
Record Kokoro := {
  new_model : string -> result KModel;
  get_voices : result (list (string * string));
  new_pipeline : string -> result KPipeline;
  set_gold : string -> KPipeline -> result KPipeline
}.

(** How a call of [init_kokoro] ends: it returns, or [sys.exit(status)]. *)
Inductive init_outcome :=
  | Returned
  | Exited (status : Z).

(** [voice_id[0] for voice_id in ...]: an empty identifier has no first
    character. *)
Fixpoint first_chars (ids : list string) : result (list string) :=
  match ids with
  | [] => Ok []
  | EmptyString :: _ => Raise (Exn IndexError "string index out of range")
  | String c _ :: ids' => cs ← first_chars ids'; Ok (String c EmptyString :: cs)
  end.

(** The log line after the voices are loaded.  The branch for a catalogue
    that is not empty formats its message with [_len], a name that is not
    defined anywhere: [None] is the [NameError] this raises. *)
Definition log_voices_loaded (voices : list (string * string)) : option unit :=
  match voices with
  | [] => Some tt
  | _ :: _ => None
  end.

(** The body of the loop over the language codes: a pipeline that cannot be
    built is skipped; one that is built is stored, and for the codes [a] and
    [b] gets its pronunciation, a failure of which leaves it stored as
    built. *)
Definition load_pipeline (k : Kokoro) (pipelines : gmap string KPipeline)
    (lang_code : string) : gmap string KPipeline :=
  match new_pipeline k lang_code with
  | Raise _ => pipelines
  | Ok pipeline =>
      if bool_decide (lang_code = "a") then
        match set_gold k "kˈOkəɹO" pipeline with
        | Ok pipeline' => <[lang_code := pipeline']> pipelines
        | Raise _ => <[lang_code := pipeline]> pipelines
        end
      else if bool_decide (lang_code = "b") then
        match set_gold k "kˈQkəɹQ" pipeline with
        | Ok pipeline' => <[lang_code := pipeline']> pipelines
        | Raise _ => <[lang_code := pipeline]> pipelines
        end
      else <[lang_code := pipeline]> pipelines
  end.

(** [init_kokoro()], on the module globals; every exception inside its
    [try] ends in [sys.exit(1)], the globals assigned so far staying
    assigned. *)
Definition init_kokoro (k : Kokoro) (device : string) (svc : Service)
    : init_outcome * Service :=
  match kokoro_model svc with
  | Some _ => (Returned, svc)
  | None =>
      match new_model k device with
      | Raise _ => (Exited 1, svc)
      | Ok model =>
          let svc1 := {| kokoro_model := Some model;
                         available_voices := available_voices svc;
                         kokoro_pipelines := kokoro_pipelines svc |} in
          match get_voices k with
          | Raise _ => (Exited 1, svc1)
          | Ok voices =>
              let svc2 := {| kokoro_model := Some model;
                             available_voices := voices;
                             kokoro_pipelines := kokoro_pipelines svc |} in
              match log_voices_loaded voices with
              | None => (Exited 1, svc2)
              | Some _ =>
                  match first_chars voices.*1 with
                  | Raise _ => (Exited 1, svc2)
                  | Ok codes =>
                      (Returned,
                       {| kokoro_model := Some model;
                          available_voices := voices;
                          kokoro_pipelines :=
                            foldl (load_pipeline k) (kokoro_pipelines svc)
                              (remove_dups codes) |})
                  end
              end
          end
      end
  end.

(** The module globals before [init_kokoro] has run. *)
Definition initial_service : Service :=
  {| kokoro_model := None; available_voices := []; kokoro_pipelines := ∅ |}.

(* ===================================================================== *)
(** * [main.py]: the server loop                                          *)
(* ===================================================================== *)

(** How one [threading.Event().wait(timeout=1)] in the loop ends. *)
Inductive wait_outcome :=
  | TimedOut
  | KeyboardInterrupt
  | WaitError (e : exn).

(** [MockMCPServer.shutdown()], on [self._running]. *)
Definition shutdown (running : bool) : bool := false.

(** [MockMCPServer.serve_forever()] against the outcomes of the waits to
    come: [self._running] when the loop is left, or [true] when the
    outcomes run out before it is, and the outcomes not consumed. *)
Fixpoint serve_forever (waits : list wait_outcome) (running : bool)
    : bool * list wait_outcome :=
  if running then
    match waits with
    | [] => (running, [])
    | TimedOut :: waits' => serve_forever waits' running
    | KeyboardInterrupt :: waits' => serve_forever waits' (shutdown running)
    | WaitError _ :: waits' => serve_forever waits' (shutdown running)
    end
  else (running, waits).

(** How [main()] ends: by [sys.exit(status)], by returning once the loop is
    left, or not at all while the loop goes on; [http_started] tells whether
    the thread of the HTTP server had been started. *)
Inductive main_outcome :=
  | MainExited (status : Z) (http_started : bool)
  | MainReturned
  | MainServing.

(** [main()]: [thread_start] is what [flask_thread.start()] does, [running]
    is [mcp_server._running] when [main] is entered.  The [SystemExit] of
    [init_kokoro] is no [Exception] and passes the [except] clause. *)
Definition main (k : Kokoro) (device : string) (thread_start : result unit)
    (waits : list wait_outcome) (svc : Service) (running : bool)
    : main_outcome * Service :=
  match init_kokoro k device svc with
  | (Exited status, svc') => (MainExited status false, svc')
  | (Returned, svc') =>
      match thread_start with
      | Raise _ => (MainExited 1 false, svc')
      | Ok _ =>
          if (serve_forever waits running).1 then (MainServing, svc')
          else (MainReturned, svc')
      end
  end.

(* ===================================================================== *)
(** * Vocabulary of the properties                                        *)
(* ===================================================================== *)

(** Two file systems with the same symbolic links. *)
Definition same_links (fs fs' : gmap (list string) node) : Prop :=
  ∀ q, readlink fs q = readlink fs' q.


(** ** A sample deployment

    The server lives in [/srv]; its artifact directory holds one artifact,
    a subdirectory with a file of its own, and links that point to the
    directory itself, outside it, to each other and to themselves. *)
Definition sample_cfg : Config :=
  {| HTTP_HOST := "127.0.0.1"; HTTP_PORT := 8080;
     TEMP_AUDIO_DIR := ["srv"; "temp_audio"] |}.

Definition sample_fs : gmap (list string) node :=
  <[ ["srv"; "temp_audio"; "tmpabc.wav"] := File (Bytes "RIFF") ]>
  (<[ ["srv"; "temp_audio"; "sub"; "deep.wav"] := File (Bytes "DEEP") ]>
  (<[ ["srv"; "temp_audio"; "sub"; "out"] := File (Bytes "SUB") ]>
  (<[ ["srv"; "temp_audio"; "sub"] := Dir ]>
  (<[ ["srv"; "temp_audio"; "loop"] := Link "loop" ]>
  (<[ ["srv"; "temp_audio"; "self"] := Link "." ]>
  (<[ ["srv"; "temp_audio"; "out"] := Link "/etc/passwd" ]>
  (<[ ["etc"; "passwd"] := File (Bytes "root") ]>
  (<[ ["etc"] := Dir ]>
  (<[ ["srv"; "config.py"] := File (Bytes "cfg") ]>
  (<[ ["srv"; "temp_audio"] := Dir ]>
  (<[ ["srv"] := Dir ]> ∅))))))))))).

Definition sample_world : World :=
  {| fs := sample_fs; choices := fun n k => n + k; drawn := 0; trace := [] |}.



(** The two prefix guards of [serve_audio]. *)
Definition prefix_rejected (filename : string) : bool :=
  startswith filename "/" || startswith filename backslash
  || startswith filename "%2F" || startswith filename "%5C".

(** A stand-in for the engine: one voice, a pipeline that yields two
    segments, a model that returns a fixed array. *)
Definition sample_pipeline : KPipeline :=
  {| load_voice := fun _ => Ok [Tensor [1%Z]; Tensor [2%Z]];
     segments := fun _ _ _ => [Ok "ab"; Ok "cde"] |}.

Definition sample_svc : Service :=
  {| kokoro_model := Some (fun _ _ _ => Ok (Tensor [7%Z]));
     available_voices := [("af_test_voice", "Test Voice Female")];
     kokoro_pipelines := {[ "a" := sample_pipeline ]} |}.

(** A stand-in for [float] on text and integers: unsigned digit strings and
    every integer are read. *)
Definition sample_ops : FloatOps :=
  {| float_of_str := fun s =>
       if forall_chars is_digit s && negb (bool_decide (s = ""))
       then Some (Float (s +:+ ".0")) else None;
     float_of_int := fun z => Some (Float (str_int z +:+ ".0")) |}.

(** The name [mkstemp] forms from the [n]-th draw. *)
Definition temp_name (w : World) (n : nat) : string :=
  "tmp" +:+ candidate_name w n +:+ ".wav".

(** Calls to the artifact store, as opposed to calls to the engine. *)
Definition is_store_call (c : call) : Prop :=
  match c with
  | CallMkstemp _ | CallWriteWav _ => True
  | _ => False
  end.


Definition name_char (a : ascii) : bool :=
  negb (contains_char a "/?#;") && negb (is_unsafe_url_byte a)
  && negb (Ascii.eqb a "000").


(** Stand-ins for the kokoro library: one that finds a voice, one that
    finds none; both build every model and pipeline asked for. *)
Definition sample_kokoro : Kokoro :=
  {| new_model := fun _ => Ok (fun _ _ _ => Ok (Tensor [7%Z]));
     get_voices := Ok [("af_test_voice", "Test Voice Female")];
     new_pipeline := fun _ => Ok sample_pipeline;
     set_gold := fun _ pipeline => Ok pipeline |}.

Definition sample_kokoro_no_voices : Kokoro :=
  {| new_model := fun _ => Ok (fun _ _ _ => Ok (Tensor [7%Z]));
     get_voices := Ok [];
     new_pipeline := fun _ => Ok sample_pipeline;
     set_gold := fun _ pipeline => Ok pipeline |}.

(** The value that the last binding of [key] in a dotenv file gives it:
    [None] when the file does not bind [key], [Some None] when its last
    binding has no value. *)
Fixpoint last_binding (bindings : list (string * option string)) (key : string)
    : option (option string) :=
  match bindings with
  | [] => None
  | kv :: rest =>
      match last_binding rest key with
      | Some v => Some v
      | None => if bool_decide (kv.1 = key) then Some kv.2 else None
      end
  end.

(** The value a dotenv file, if there is one, sets [key] to. *)
Definition file_sets (file : option (list (string * option string))) (key : string)
    : option string :=
  match file with
  | None => None
  | Some bindings =>
      match last_binding bindings key with
      | Some (Some v) => Some v
      | _ => None
      end
  end.

(* ===================================================================== *)
(** * Properties                                                          *)
(* ===================================================================== *)

(** ** Paths *)

Lemma elem_of_parents (t p : list string) :
  t ∈ parents p ↔ ∃ s, s ≠ [] ∧ p = t ++ s.
Proof.
  unfold parents. rewrite list_elem_of_fmap. split.
  - intros (n & -> & Hn). apply elem_of_reverse, elem_of_seq in Hn.
    exists (drop n p). split.
    + intros Hd. apply (f_equal length) in Hd. rewrite length_drop in Hd.
      simpl in Hd. lia.
    + by rewrite take_drop.
  - intros (s & Hs & ->). exists (length t). split.
    + by rewrite take_app_length.
    + apply elem_of_reverse, elem_of_seq. rewrite length_app.
      destruct s; [done | simpl; lia].
Qed.


Lemma parent_snoc (p : list string) (name : string) : parent (p ++ [name]) = p.
Proof. unfold parent. apply removelast_last. Qed.

Lemma last_snoc_name (p : list string) (name : string) :
  List.last (p ++ [name]) "" = name.
Proof. apply last_last. Qed.

(** ** [realpath] *)

Lemma walk_app follow fs path r1 r2 :
  walk follow fs path (r1 ++ r2)
  = walk follow fs path r1 ≫= fun q => walk follow fs q r2.
Proof.
  revert path. induction r1 as [| name r1 IH]; intros path; [done |].
  simpl. destruct (is_skipped name); [apply IH |].
  case_bool_decide; [apply IH |].
  destruct (readlink fs (path ++ [name])) as [target |]; [| apply IH].
  destruct (follow (path ++ [name]) path target); [apply IH | done].
Qed.

Lemma walk_ext follow follow' fs fs' path rest :
  same_links fs fs' ->
  (∀ a b c, follow a b c = follow' a b c) ->
  walk follow fs path rest = walk follow' fs' path rest.
Proof.
  intros Hl Hf. revert path. induction rest as [| name rest IH]; intros path; [done |].
  simpl. destruct (is_skipped name); [apply IH |].
  case_bool_decide; [apply IH |].
  rewrite <- Hl. destruct (readlink fs (path ++ [name])) as [target |]; [| apply IH].
  rewrite <- Hf. destruct (follow (path ++ [name]) path target); [apply IH | done].
Qed.

Lemma joinrealpath_same_links fuel fs fs' seen path rest :
  same_links fs fs' ->
  joinrealpath fuel fs seen path rest = joinrealpath fuel fs' seen path rest.
Proof.
  intros Hl. revert seen path rest.
  induction fuel as [| fuel IH]; intros seen path rest; [done |].
  simpl. apply walk_ext; [done |]. intros a b c.
  case_bool_decide; [done | apply IH].
Qed.

Lemma same_links_num_links fs fs' :
  same_links fs fs' -> num_links fs = num_links fs'.
Proof.
  intros Hl. unfold num_links. f_equal. apply map_eq. intros q.
  apply option_eq. intros x. rewrite !map_lookup_filter_Some.
  specialize (Hl q). unfold readlink in Hl. unfold is_link. simpl.
  destruct x as [c | | t]; [tauto | tauto |].
  split; intros [Hq _]; rewrite Hq in Hl.
  - destruct (fs' !! q) as [[| | ?] |]; by simplify_eq.
  - destruct (fs !! q) as [[| | ?] |]; by simplify_eq.
Qed.

Lemma realpath_same_links fs fs' p :
  same_links fs fs' -> realpath fs p = realpath fs' p.
Proof.
  intros Hl. unfold realpath. rewrite (same_links_num_links fs fs' Hl).
  by apply joinrealpath_same_links.
Qed.


Lemma same_links_insert_file fs r c :
  readlink fs r = None -> same_links fs (<[r := File c]> fs).
Proof.
  intros Hr q. unfold readlink in *. destruct (decide (q = r)) as [-> |].
  - rewrite lookup_insert_eq. destruct (fs !! r) as [[| | ?] |]; done.
  - by rewrite lookup_insert_ne.
Qed.








(** Appending one ordinary name that is not a link to a path that resolves. *)
Lemma realpath_snoc fs p t name :
  realpath fs p = Some t ->
  is_skipped name = false ->
  name ≠ ".." ->
  readlink fs (t ++ [name]) = None ->
  realpath fs (p ++ [name]) = Some (t ++ [name]).
Proof.
  unfold realpath. simpl. intros Hp Hs Hdd Hl.
  rewrite walk_app, Hp. simpl. rewrite Hs.
  case_bool_decide; [done |]. by rewrite Hl.
Qed.

Lemma has_nul_app (p q : list string) :
  has_nul (p ++ q) = has_nul p || has_nul q.
Proof. unfold has_nul. apply existsb_app. Qed.

(** ** The bound on nested link resolutions is never the reason to fail *)

Lemma walk_ext_links follow follow' fs path rest :
  (∀ a b c, readlink fs a = Some c -> follow a b c = follow' a b c) ->
  walk follow fs path rest = walk follow' fs path rest.
Proof.
  intros Hf. revert path. induction rest as [| name rest IH]; intros path; [done |].
  simpl. destruct (is_skipped name); [apply IH |].
  case_bool_decide; [apply IH |].
  destruct (readlink fs (path ++ [name])) as [target |] eqn:Hl; [| apply IH].
  rewrite (Hf _ _ _ Hl).
  destruct (follow' (path ++ [name]) path target); [apply IH | done].
Qed.

Lemma links_in_progress_bound fs (seen : list (list string)) :
  NoDup seen ->
  (∀ a, a ∈ seen -> is_Some (readlink fs a)) ->
  length seen <= num_links fs.
Proof.
  intros Hnd Hlinks. unfold num_links.
  rewrite <- (size_list_to_set (C := gset (list string)) seen Hnd), <- size_dom.
  apply subseteq_size. intros a Ha. apply elem_of_list_to_set in Ha.
  destruct (Hlinks a Ha) as [t Ht]. unfold readlink in Ht.
  apply elem_of_dom. exists (Link t). apply map_lookup_filter_Some.
  destruct (fs !! a) as [[| | t'] |]; try done.
  injection Ht as ->. split; [done | exact I].
Qed.

(** Any two amounts of fuel that exceed the number of links not yet in
    progress give the same result. *)
Lemma joinrealpath_fuel fs fuel1 fuel2 seen path rest :
  NoDup seen ->
  (∀ a, a ∈ seen -> is_Some (readlink fs a)) ->
  num_links fs < fuel1 + length seen ->
  num_links fs < fuel2 + length seen ->
  joinrealpath fuel1 fs seen path rest = joinrealpath fuel2 fs seen path rest.
Proof.
  revert fuel2 seen path rest.
  induction fuel1 as [| fuel1 IH]; intros fuel2 seen path rest Hnd Hlinks H1 H2.
  { pose proof (links_in_progress_bound fs seen Hnd Hlinks). lia. }
  destruct fuel2 as [| fuel2].
  { pose proof (links_in_progress_bound fs seen Hnd Hlinks). lia. }
  cbn [joinrealpath]. apply walk_ext_links. intros a b c Hl.
  case_bool_decide as Hin; [done |].
  apply IH.
  - by constructor.
  - intros x [-> | Hx]%elem_of_cons; [by rewrite Hl | by apply Hlinks].
  - simpl. lia.
  - simpl. lia.
Qed.

(** [realpath] with more fuel is [realpath]: [None] stands for a loop. *)
Lemma realpath_fuel fs p k :
  joinrealpath (S (num_links fs) + k) fs [] [] p = realpath fs p.
Proof.
  unfold realpath. apply joinrealpath_fuel; simpl; try lia.
  - constructor.
  - intros a Ha. by apply elem_of_nil in Ha.
Qed.

(** ** [cleanup_audio_tool] *)

Lemma Path_resolve_Ok fs p r :
  Path_resolve fs p = Ok r <-> has_nul p = false ∧ realpath fs p = Some r.
Proof.
  unfold Path_resolve. destruct (has_nul p).
  - split; [done | by intros [? _]].
  - destruct (realpath fs p); split; try done.
    + by intros [= ->].
    + by intros [_ [= ->]].
    + by intros [_ ?].
Qed.




Lemma Path_name_empty : Path_name "" = "".
Proof. reflexivity. Qed.







(** ** [serve_audio] *)


Lemma split_on_no_sep (c : ascii) (s : string) :
  contains_char c s = false -> split_on c s = [s].
Proof.
  induction s as [| a s IH]; simpl; [done |].
  intros [Ha Hs]%orb_false_iff. rewrite Ha, (IH Hs). done.
Qed.







Lemma startswith_slash (s : string) :
  contains_char "/" s = false -> startswith s "/" = false.
Proof.
  destruct s as [| a s]; [done |]. simpl. intros [-> _]%orb_false_iff. done.
Qed.

Lemma safe_join_name (directory : list string) (name : string) :
  contains_char "/" name = false ->
  is_skipped name = false ->
  name ≠ ".." ->
  safe_join directory name = Some (directory ++ [name]).
Proof.
  intros Hslash Hs Hdd. unfold safe_join.
  rewrite startswith_slash, split_on_no_sep by done. simpl.
  rewrite Hs. by rewrite bool_decide_eq_false_2.
Qed.

Lemma serve_audio_rejected cfg fs filename :
  prefix_rejected filename = true ->
  serve_audio cfg fs filename = Plain "Not Found" 404.
Proof.
  unfold prefix_rejected, serve_audio.
  destruct (startswith filename "/"), (startswith filename backslash),
    (startswith filename "%2F"), (startswith filename "%5C"); done.
Qed.

Lemma serve_audio_passed cfg fs filename :
  prefix_rejected filename = false ->
  serve_audio cfg fs filename
  = match serve_audio_try cfg fs filename with
    | Ok r => r
    | Raise e => serve_audio_except e
    end.
Proof.
  unfold prefix_rejected, serve_audio.
  destruct (startswith filename "/"), (startswith filename backslash),
    (startswith filename "%2F"), (startswith filename "%5C"); done.
Qed.










(** The path that [serve_audio] checks and the path it opens can differ:
    [sub/out] is a regular file below the directory, the entry [out] of the
    directory is a link to [/etc/passwd], and that is what is sent. *)
Lemma serve_audio_opens_entry_of_same_name :
  Path_resolve sample_fs (joinpath (TEMP_AUDIO_DIR sample_cfg) "sub/out")
  = Ok ["srv"; "temp_audio"; "sub"; "out"]
  ∧ serve_audio sample_cfg sample_fs "sub/out"
    = SendFile ["srv"; "temp_audio"; "out"] (Bytes "root") "audio/wav" false.
Proof. split; vm_compute; reflexivity. Qed.

(** ** [generate_speech_tool] and the dispatcher *)












(** ** The artifact store *)

Lemma temp_name_ordinary w n :
  is_skipped (temp_name w n) = false ∧ temp_name w n ≠ "..".
Proof. split; [reflexivity | discriminate]. Qed.

(** A successful [mkstemp]: the name comes from the first draw whose entry
    is free in the (resolved) directory, and an empty regular file is
    created there. *)
Lemma mkstemp_inner_Ok tries dir w p w' :
  mkstemp_inner tries dir "tmp" ".wav" w = (Ok p, w') ->
  ∃ n d,
    drawn w <= n ∧ drawn w' = S n
    ∧ p = dir ++ [temp_name w n]
    ∧ realpath (fs w) dir = Some d
    ∧ fs w !! d = Some Dir
    ∧ fs w !! (d ++ [temp_name w n]) = None
    ∧ (∀ k, drawn w <= k < n -> fs w !! (d ++ [temp_name w k]) ≠ None)
    ∧ fs w' = <[d ++ [temp_name w n] := File (Bytes "")]> (fs w)
    ∧ choices w' = choices w
    ∧ trace w' = trace w.
Proof.
  revert w. induction tries as [| tries IH]; intros w; simpl; [done |].
  fold (temp_name w (drawn w)).
  destruct (os_open_excl (fs w) dir (temp_name w (drawn w))) as [fs' | e] eqn:Hopen.
  - intros [= <- <-]. unfold os_open_excl in Hopen.
    destruct (realpath (fs w) dir) as [d |] eqn:Hd; [| done].
    destruct (fs w !! d) as [[| |] |] eqn:Hdir; try done.
    destruct (fs w !! (d ++ [temp_name w (drawn w)])) eqn:Hfree; [done |].
    injection Hopen as <-.
    exists (drawn w), d. repeat (split; [done |]). split; [intros k; lia | done].
  - destruct (isinstance e FileExistsError) eqn:Hexists; [| done].
    intros Hrec. apply IH in Hrec as (n & d & Hle & Hdrawn & -> & Hd & Hdir & Hfree & Hmin & Hfs & Hch & Htr).
    simpl in *. exists n, d.
    split; [lia |]. repeat (split; [done |]). split; [| done].
    intros k Hk. destruct (decide (k = drawn w)) as [-> | Hne]; [| apply Hmin; lia].
    unfold os_open_excl in Hopen. rewrite Hd, Hdir in Hopen.
    destruct (fs w !! (d ++ [temp_name w (drawn w)])); done.
Qed.

Lemma mkstemp_inner_Raise tries dir pre suf w e w' :
  mkstemp_inner tries dir pre suf w = (Raise e, w') ->
  fs w' = fs w ∧ trace w' = trace w.
Proof.
  revert w. induction tries as [| tries IH]; intros w; simpl; [by intros [= _ <-] |].
  destruct (os_open_excl _ _ _) as [fs' | e0]; [done |].
  destruct (isinstance e0 FileExistsError); [| by intros [= _ <-]].
  intros Hrec. by apply IH in Hrec.
Qed.

(** Writing the wave file right after [mkstemp] created it cannot fail, and
    the file sits directly in the resolved directory. *)
Lemma write_after_mkstemp dir data w p w1 :
  mkstemp ".wav" dir w = (Ok p, w1) ->
  ∃ n d,
    drawn w <= n ∧ drawn w1 = S n
    ∧ p = dir ++ [temp_name w n]
    ∧ realpath (fs w) dir = Some d
    ∧ fs w !! d = Some Dir
    ∧ fs w !! (d ++ [temp_name w n]) = None
    ∧ (∀ k, drawn w <= k < n -> fs w !! (d ++ [temp_name w k]) ≠ None)
    ∧ write_wav p KOKORO_SAMPLE_RATE data w1
      = (Ok tt,
         {| fs := <[d ++ [temp_name w n] := File (Wave KOKORO_SAMPLE_RATE data)]> (fs w);
            choices := choices w; drawn := S n;
            trace := trace w ++ [CallMkstemp dir; CallWriteWav p] |}).
Proof.
  unfold mkstemp. intros Hmk.
  apply mkstemp_inner_Ok in Hmk
    as (n & d & Hle & Hdrawn & -> & Hd & Hdir & Hfree & Hmin & Hfs & Hch & Htr).
  simpl in *. exists n, d. repeat (split; [done |]).
  change (temp_name (emit (CallMkstemp dir) w) n) with (temp_name w n) in *.
  destruct (temp_name_ordinary w n) as [Hskip Hdd].
  assert (readlink (fs w) (d ++ [temp_name w n]) = None) as Hnolink
    by (unfold readlink; by rewrite Hfree).
  assert (realpath (fs w1) (dir ++ [temp_name w n]) = Some (d ++ [temp_name w n])) as Hreal.
  { rewrite Hfs. apply realpath_snoc; try done.
    - rewrite <- (realpath_same_links (fs w)); [done |].
      by apply same_links_insert_file.
    - unfold readlink. by rewrite lookup_insert_eq. }
  unfold write_wav. cbn [fs emit]. rewrite Hreal.
  rewrite parent_snoc, Hfs, lookup_insert_eq, lookup_insert_ne, Hdir.
  2:{ intros E. apply (f_equal length) in E. rewrite length_app in E. simpl in E. lia. }
  unfold set_fs. cbn [fs choices drawn trace emit].
  rewrite insert_insert_eq, Hch, Hdrawn, Htr, <- app_assoc. done.
Qed.

(** ** [generate_speech_audio] *)

(** The loop looks at the head of what the generator yields and at nothing
    else. *)
Lemma first_segment_head_only model pack first later later' voice_id speed w :
  first_segment model pack (first :: later) voice_id speed w
  = first_segment model pack (first :: later') voice_id speed w.
Proof. reflexivity. Qed.

(** The [try] block when the first segment is synthesised: what remains is
    the store, and it cannot fail half way. *)
Lemma generate_speech_audio_try_segment cfg model pipeline text v speed w
    pack ps later ref_s audio :
  load_voice pipeline v = Ok pack ->
  segments pipeline text v speed = Ok ps :: later ->
  py_index pack (Z.of_nat (String.length ps) - 1) = Ok ref_s ->
  model ps ref_s speed = Ok audio ->
  let engine_calls :=
    [CallLoadVoice v; CallPipeline text v speed; CallNextSegment;
     CallModel ps ref_s speed] in
  (∃ e w',
     generate_speech_audio_try cfg model pipeline text v speed w = (Raise e, w')
     ∧ fs w' = fs w
     ∧ trace w' = trace w ++ engine_calls ++ [CallMkstemp (TEMP_AUDIO_DIR cfg)])
  ∨ ∃ n d,
      drawn w <= n
      ∧ realpath (fs w) (TEMP_AUDIO_DIR cfg) = Some d
      ∧ fs w !! d = Some Dir
      ∧ fs w !! (d ++ [temp_name w n]) = None
      ∧ (∀ k, drawn w <= k < n -> fs w !! (d ++ [temp_name w k]) ≠ None)
      ∧ generate_speech_audio_try cfg model pipeline text v speed w
        = (Ok (TEMP_AUDIO_DIR cfg ++ [temp_name w n]),
           {| fs := <[d ++ [temp_name w n] := File (Wave KOKORO_SAMPLE_RATE audio)]> (fs w);
              choices := choices w; drawn := S n;
              trace := trace w ++ engine_calls
                       ++ [CallMkstemp (TEMP_AUDIO_DIR cfg);
                           CallWriteWav (TEMP_AUDIO_DIR cfg ++ [temp_name w n])] |}).
Proof.
  intros Hpack Hseg Hidx Hmodel engine_calls.
  unfold generate_speech_audio_try. rewrite Hpack, Hseg.
  unfold first_segment. rewrite Hidx, Hmodel.
  set (w3 := emit _ (emit _ (emit _ (emit _ w)))).
  destruct (mkstemp ".wav" (TEMP_AUDIO_DIR cfg) w3) as [[p | e] w4] eqn:Hmk.
  - right.
    destruct (write_after_mkstemp _ audio _ _ _ Hmk)
      as (n & d & Hle & Hdrawn & -> & Hd & Hdir & Hfree & Hmin & Hwrite).
    exists n, d. repeat (split; [done |]).
    change (temp_name w3 n) with (temp_name w n) in *.
    rewrite Hwrite. subst w3 engine_calls. cbn [fs choices drawn trace emit].
    by rewrite <- !app_assoc.
  - left. exists e, w4. split; [done |]. unfold mkstemp in Hmk.
    pose proof (mkstemp_inner_Raise _ _ _ _ _ _ _ Hmk) as [Hfs Htr].
    rewrite Hfs, Htr. subst w3 engine_calls. cbn [fs trace emit].
    by rewrite <- !app_assoc.
Qed.



Lemma generate_speech_audio_try_Ok cfg model pipeline text v speed w p w' :
  generate_speech_audio_try cfg model pipeline text v speed w = (Ok p, w') ->
  ∃ n d audio,
    drawn w <= n
    ∧ realpath (fs w) (TEMP_AUDIO_DIR cfg) = Some d
    ∧ fs w !! (d ++ [temp_name w n]) = None
    ∧ (∀ k, drawn w <= k < n -> fs w !! (d ++ [temp_name w k]) ≠ None)
    ∧ p = TEMP_AUDIO_DIR cfg ++ [temp_name w n]
    ∧ fs w' = <[d ++ [temp_name w n] := File (Wave KOKORO_SAMPLE_RATE audio)]> (fs w).
Proof.
  intros Htry.
  destruct (load_voice pipeline v) as [pack |] eqn:Hpack.
  2:{ unfold generate_speech_audio_try in Htry. by rewrite Hpack in Htry. }
  destruct (segments pipeline text v speed) as [| [ps |] later] eqn:Hseg;
    try (unfold generate_speech_audio_try in Htry;
         rewrite Hpack, Hseg in Htry; by cbn [first_segment] in Htry).
  destruct (py_index pack (Z.of_nat (String.length ps) - 1)) as [ref_s |] eqn:Hidx.
  2:{ unfold generate_speech_audio_try in Htry. rewrite Hpack, Hseg in Htry.
      unfold first_segment in Htry. by rewrite Hidx in Htry. }
  destruct (model ps ref_s speed) as [audio |] eqn:Hmodel.
  2:{ unfold generate_speech_audio_try in Htry. rewrite Hpack, Hseg in Htry.
      unfold first_segment in Htry. by rewrite Hidx, Hmodel in Htry. }
  destruct (generate_speech_audio_try_segment cfg model pipeline text v speed w
              pack ps later ref_s audio Hpack Hseg Hidx Hmodel)
    as [(e & w1 & Hr & _) | (n & d & Hle & Hd & _ & Hfree & Hmin & Hr)];
    rewrite Hr in Htry; [done |].
  injection Htry as <- <-. by exists n, d, audio.
Qed.

(** A successful [generate_speech]: the artifact it made. *)
Lemma generate_speech_tool_Ok cfg ops svc text voice_id speed w r w' :
  generate_speech_tool cfg ops svc text voice_id speed w = (Ok r, w') ->
  ∃ n d audio,
    drawn w <= n
    ∧ realpath (fs w) (TEMP_AUDIO_DIR cfg) = Some d
    ∧ fs w !! (d ++ [temp_name w n]) = None
    ∧ (∀ k, drawn w <= k < n -> fs w !! (d ++ [temp_name w k]) ≠ None)
    ∧ r = Speech (audio_uri_of cfg (temp_name w n)) "wav"
    ∧ fs w' = <[d ++ [temp_name w n] := File (Wave KOKORO_SAMPLE_RATE audio)]> (fs w).
Proof.
  unfold generate_speech_tool. destruct (_ || _); [done |].
  destruct (generate_speech_try _ _ _ _ _ _ _) as [[r0 | e] w1] eqn:Htry.
  2:{ by destruct (_ || _). }
  intros [= <- <-]. unfold generate_speech_try in Htry.
  destruct (py_float ops speed) as [speed_float |]; [| done].
  destruct (generate_speech_audio _ _ _ _ _ _) as [[p | e] w2] eqn:Haudio; [| done].
  injection Htry as <- <-. unfold generate_speech_audio in Haudio.
  destruct (kokoro_model svc) as [model |]; [| done].
  destruct (negb _); [done |].
  destruct voice_id as [| | | | [| c rest]]; try done.
  destruct (kokoro_pipelines svc !! _) as [pipeline |]; [| done].
  destruct (generate_speech_audio_try _ _ _ _ _ _ _) as [[p0 | e] w3] eqn:Htry.
  2:{ by destruct (isinstance e KeyError). }
  injection Haudio as <- <-.
  apply generate_speech_audio_try_Ok in Htry
    as (n & d & audio & Hle & Hd & Hfree & Hmin & -> & Hfs).
  exists n, d, audio. cbn [fs drawn emit] in *.
  change (temp_name (emit _ w) n) with (temp_name w n) in *.
  repeat (split; [done |]). split; [| done].
  by rewrite last_snoc_name.
Qed.

Lemma string_of_list_ascii_length (l : list ascii) :
  String.length (string_of_list_ascii l) = length l.
Proof. induction l as [| a l IH]; simpl; [done | by rewrite IH]. Qed.

Lemma character_in (i : nat) : contains_char (character i) characters = true.
Proof.
  unfold character.
  pose proof (Nat.mod_upper_bound i 37 ltac:(lia)) as Hlt.
  generalize dependent (i mod 37). intros k Hk.
  do 37 (destruct k as [| k]; [reflexivity |]). lia.
Qed.

Lemma candidate_name_chars (ok : ascii -> bool) w n :
  forall_chars ok characters = true ->
  forall_chars ok (candidate_name w n) = true.
Proof.
  intros Hok. unfold candidate_name. generalize (seq 0 8).
  assert (∀ a, contains_char a characters = true -> ok a = true) as Hin.
  { revert Hok. generalize characters. intros s. induction s as [| b s IH]; simpl; [done |].
    intros [Hb Hs]%andb_true_iff a [Ha | Ha]%orb_true_iff.
    - apply Ascii.eqb_eq in Ha. by subst.
    - by apply IH. }
  intros l. induction l as [| k l IH]; simpl; [done |].
  rewrite IH, andb_true_r. apply Hin, character_in.
Qed.

(** C5.  A successful [generate_speech] has created exactly one file.  Its
    name is ["tmp"], eight characters drawn by [tempfile] from its own
    alphabet, and [".wav"]; the name is the same whatever [text],
    [voice_id] and [speed] the client sent; the file did not exist before,
    holds the wave data, and its resolved path is the resolved
    [TEMP_AUDIO_DIR] extended by that name, hence strictly inside the
    directory. *)
Theorem artifact_invariant cfg ops svc text voice_id speed w r w' :
  generate_speech_tool cfg ops svc text voice_id speed w = (Ok r, w') ->
  ∃ n d audio,
    r = Speech (audio_uri_of cfg (temp_name w n)) "wav"
    ∧ temp_name w n = "tmp" +:+ candidate_name w n +:+ ".wav"
    ∧ String.length (candidate_name w n) = 8
    ∧ forall_chars (fun a => contains_char a characters) (candidate_name w n) = true
    ∧ fs w !! (d ++ [temp_name w n]) = None
    ∧ fs w' !! (d ++ [temp_name w n]) = Some (File (Wave KOKORO_SAMPLE_RATE audio))
    ∧ (∀ p, p ≠ d ++ [temp_name w n] -> fs w' !! p = fs w !! p)
    ∧ realpath (fs w') (TEMP_AUDIO_DIR cfg) = Some d
    ∧ realpath (fs w') (TEMP_AUDIO_DIR cfg ++ [temp_name w n])
      = Some (d ++ [temp_name w n])
    ∧ d ∈ parents (d ++ [temp_name w n])
    ∧ (∀ text2 voice_id2 speed2 r2 w2,
         generate_speech_tool cfg ops svc text2 voice_id2 speed2 w = (Ok r2, w2) ->
         r2 = r).
Proof.
  intros Hcall.
  destruct (generate_speech_tool_Ok _ _ _ _ _ _ _ _ _ Hcall)
    as (n & d & audio & Hle & Hd & Hfree & Hmin & -> & Hfs).
  exists n, d, audio.
  assert (readlink (fs w) (d ++ [temp_name w n]) = None) as Hnolink
    by (unfold readlink; by rewrite Hfree).
  assert (realpath (fs w') (TEMP_AUDIO_DIR cfg) = Some d) as Hd'.
  { rewrite Hfs, <- (realpath_same_links (fs w)); [done |].
    by apply same_links_insert_file. }
  destruct (temp_name_ordinary w n) as [Hskip Hdd].
  split; [done |]. split; [done |].
  split; [unfold candidate_name; by rewrite string_of_list_ascii_length |].
  split; [by apply candidate_name_chars |].
  split; [done |].
  split; [by rewrite Hfs, lookup_insert_eq |].
  split; [intros p Hp; by rewrite Hfs, lookup_insert_ne |].
  split; [done |].
  split.
  { apply realpath_snoc; try done. rewrite Hfs. unfold readlink.
    by rewrite lookup_insert_eq. }
  split; [apply elem_of_parents; by exists [temp_name w n] |].
  intros text2 voice_id2 speed2 r2 w2 Hcall2.
  destruct (generate_speech_tool_Ok _ _ _ _ _ _ _ _ _ Hcall2)
    as (n2 & d2 & audio2 & Hle2 & Hd2 & Hfree2 & Hmin2 & -> & _).
  rewrite Hd in Hd2. injection Hd2 as <-.
  assert (n2 = n) as ->; [| done].
  destruct (Nat.lt_trichotomy n2 n) as [Hlt | [-> | Hlt]]; [| done |].
  - exfalso. apply (Hmin n2); [lia | done].
  - exfalso. apply (Hmin2 n); [lia | done].
Qed.

(** In the sample deployment: the artifact is [tmpabcdefgh.wav] in
    [/srv/temp_audio]. *)
Lemma artifact_invariant_witness :
  ∃ n d audio,
    fs (snd (generate_speech_tool sample_cfg sample_ops sample_svc
               (VStr "Hello world") (VStr "af_test_voice") (VFloat (Float "1.2"))
               sample_world))
      !! (d ++ [temp_name sample_world n])
    = Some (File (Wave KOKORO_SAMPLE_RATE audio))
    ∧ d ∈ parents (d ++ [temp_name sample_world n]).
Proof.
  assert (generate_speech_tool sample_cfg sample_ops sample_svc
            (VStr "Hello world") (VStr "af_test_voice") (VFloat (Float "1.2"))
            sample_world
          = (Ok (Speech "http://127.0.0.1:8080/audio/tmpabcdefgh.wav" "wav"),
             snd (generate_speech_tool sample_cfg sample_ops sample_svc
                    (VStr "Hello world") (VStr "af_test_voice") (VFloat (Float "1.2"))
                    sample_world))) as Hcall
    by (vm_compute; reflexivity).
  destruct (artifact_invariant _ _ _ _ _ _ _ _ _ Hcall)
    as (n & d & audio & _ & _ & _ & _ & _ & Hfile & _ & _ & _ & Hin & _).
  exists n, d, audio. split; [exact Hfile | exact Hin].
Defined.

(** ** URIs *)

Lemma forall_chars_app ok (a b : string) :
  forall_chars ok (a +:+ b) = forall_chars ok a && forall_chars ok b.
Proof. induction a as [| x a IH]; simpl; [done |]. by rewrite IH, andb_assoc. Qed.

Lemma forall_chars_impl (p q : ascii -> bool) (s : string) :
  (∀ a, p a = true -> q a = true) ->
  forall_chars p s = true -> forall_chars q s = true.
Proof.
  intros Hpq. induction s as [| x s IH]; simpl; [done |].
  intros [Hx Hs]%andb_true_iff. by rewrite (Hpq x Hx), IH.
Qed.





Lemma contains_char_false (c : ascii) (s : string) :
  forall_chars (fun a => negb (Ascii.eqb a c)) s = true ->
  contains_char c s = false.
Proof.
  induction s as [| x s IH]; simpl; [done |].
  intros [Hx Hs]%andb_true_iff. apply negb_true_iff in Hx. by rewrite Hx, IH.
Qed.




Lemma temp_name_chars w n : forall_chars name_char (temp_name w n) = true.
Proof.
  unfold temp_name. rewrite !forall_chars_app, candidate_name_chars by reflexivity.
  reflexivity.
Qed.



Lemma name_char_plain (name : string) :
  forall_chars name_char name = true ->
  contains_char "/" name = false ∧ contains_char "000"%char name = false.
Proof.
  intros Hname. split; apply contains_char_false; revert Hname;
    apply forall_chars_impl; intros a Ha; unfold name_char in Ha;
    apply andb_true_iff in Ha as [Ha Hnul]; apply andb_true_iff in Ha as [Ha _].
  - apply negb_true_iff in Ha. apply negb_true_iff.
    destruct (Ascii.eqb a "/") eqn:E; [| done].
    apply Ascii.eqb_eq in E. by subst.
  - done.
Qed.









(* ===================================================================== *)
(** * Further properties                                                  *)
(* ===================================================================== *)

(** ** Serving artifacts *)

Lemma path_parts_plain (name : string) :
  contains_char "/" name = false ->
  is_skipped name = false ->
  path_parts name = [name].
Proof.
  intros Hslash Hskip. unfold path_parts. rewrite split_on_no_sep by done.
  cbn [List.filter]. by rewrite Hskip.
Qed.

Lemma joinpath_plain (base : list string) (name : string) :
  contains_char "/" name = false ->
  is_skipped name = false ->
  joinpath base name = base ++ [name].
Proof.
  intros Hslash Hskip. unfold joinpath.
  by rewrite startswith_slash, path_parts_plain.
Qed.

Lemma has_nul_snoc (base : list string) (name : string) :
  contains_char "000"%char name = false ->
  has_nul (base ++ [name]) = has_nul base.
Proof.
  intros Hnul. rewrite has_nul_app. unfold has_nul at 2. cbn [existsb].
  rewrite Hnul. by rewrite !orb_false_r.
Qed.

(** Resolving a plain name in a directory that is its own real path, when
    the entry of that name is not a link. *)
Lemma resolve_plain_entry cfg fs name :
  Path_resolve fs (TEMP_AUDIO_DIR cfg) = Ok (TEMP_AUDIO_DIR cfg) ->
  forall_chars name_char name = true ->
  is_skipped name = false ->
  name ≠ ".." ->
  readlink fs (TEMP_AUDIO_DIR cfg ++ [name]) = None ->
  Path_resolve fs (joinpath (TEMP_AUDIO_DIR cfg) name) = Ok (TEMP_AUDIO_DIR cfg ++ [name])
  ∧ stat fs (TEMP_AUDIO_DIR cfg ++ [name]) = fs !! (TEMP_AUDIO_DIR cfg ++ [name]).
Proof.
  intros [Hnul Hreal]%Path_resolve_Ok Hname Hskip Hdd Hlink.
  destruct (name_char_plain name Hname) as [Hslash Hnul_name].
  assert (realpath fs (TEMP_AUDIO_DIR cfg ++ [name]) = Some (TEMP_AUDIO_DIR cfg ++ [name]))
    as Hreal' by by apply realpath_snoc.
  split.
  - rewrite joinpath_plain by done. apply Path_resolve_Ok.
    by rewrite has_nul_snoc.
  - unfold stat. by rewrite has_nul_snoc, Hnul, Hreal'.
Qed.

Lemma serve_audio_file_entry cfg fs name c :
  Path_resolve fs (TEMP_AUDIO_DIR cfg) = Ok (TEMP_AUDIO_DIR cfg) ->
  forall_chars name_char name = true ->
  is_skipped name = false ->
  name ≠ ".." ->
  prefix_rejected name = false ->
  fs !! (TEMP_AUDIO_DIR cfg ++ [name]) = Some (File c) ->
  serve_audio cfg fs name
  = SendFile (TEMP_AUDIO_DIR cfg ++ [name]) c "audio/wav" false.
Proof.
  intros Hdir Hname Hskip Hdd Hpre Hfile.
  destruct (name_char_plain name Hname) as [Hslash _].
  destruct (resolve_plain_entry cfg fs name Hdir Hname Hskip Hdd) as [Hres Hstat].
  { unfold readlink. by rewrite Hfile. }
  rewrite serve_audio_passed by done. unfold serve_audio_try.
  rewrite Hres. cbn [mbind result_bind]. unfold Path_is_file.
  rewrite Hstat, Hfile. cbn [negb]. rewrite Hdir. cbn [mbind result_bind].
  rewrite bool_decide_eq_true_2
    by (apply elem_of_parents; by exists [name]).
  cbn [negb]. rewrite last_snoc_name. unfold send_from_directory.
  rewrite safe_join_name by done. by rewrite Hstat, Hfile.
Qed.

Lemma serve_audio_no_file_entry cfg fs name :
  Path_resolve fs (TEMP_AUDIO_DIR cfg) = Ok (TEMP_AUDIO_DIR cfg) ->
  forall_chars name_char name = true ->
  is_skipped name = false ->
  name ≠ ".." ->
  fs !! (TEMP_AUDIO_DIR cfg ++ [name]) = None
  ∨ fs !! (TEMP_AUDIO_DIR cfg ++ [name]) = Some Dir ->
  serve_audio cfg fs name = Plain "Not Found" 404.
Proof.
  intros Hdir Hname Hskip Hdd Hentry.
  destruct (prefix_rejected name) eqn:Hpre; [by apply serve_audio_rejected |].
  destruct (resolve_plain_entry cfg fs name Hdir Hname Hskip Hdd) as [Hres Hstat].
  { unfold readlink. by destruct Hentry as [-> | ->]. }
  rewrite serve_audio_passed by done. unfold serve_audio_try.
  rewrite Hres. cbn [mbind result_bind]. unfold Path_is_file.
  rewrite Hstat. by destruct Hentry as [-> | ->].
Qed.

(** X1.  In a directory that is its own real path, a plain file name that
    passes the prefix guards and whose entry is not a link is served
    exactly when the entry is a regular file, and then with the content of
    that file, as [audio/wav], inline. *)
Theorem serve_audio_serves_regular_files cfg fs name :
  Path_resolve fs (TEMP_AUDIO_DIR cfg) = Ok (TEMP_AUDIO_DIR cfg) ->
  forall_chars name_char name = true ->
  is_skipped name = false ->
  name ≠ ".." ->
  prefix_rejected name = false ->
  readlink fs (TEMP_AUDIO_DIR cfg ++ [name]) = None ->
  (∀ c, fs !! (TEMP_AUDIO_DIR cfg ++ [name]) = Some (File c) ->
        serve_audio cfg fs name
        = SendFile (TEMP_AUDIO_DIR cfg ++ [name]) c "audio/wav" false)
  ∧ (status_code (serve_audio cfg fs name) = 200%Z
     <-> ∃ c, fs !! (TEMP_AUDIO_DIR cfg ++ [name]) = Some (File c)).
Proof.
  intros Hdir Hname Hskip Hdd Hpre Hlink.
  split; [intros c Hc; by apply serve_audio_file_entry |].
  split.
  - intros Hstatus.
    destruct (fs !! (TEMP_AUDIO_DIR cfg ++ [name])) as [[c | | t] |] eqn:Hentry.
    + by exists c.
    + rewrite serve_audio_no_file_entry in Hstatus by auto. done.
    + unfold readlink in Hlink. by rewrite Hentry in Hlink.
    + rewrite serve_audio_no_file_entry in Hstatus by auto. done.
  - intros [c Hc]. by rewrite (serve_audio_file_entry cfg fs name c).
Qed.

Lemma serve_audio_serves_regular_files_witness :
  serve_audio sample_cfg sample_fs "tmpabc.wav"
  = SendFile ["srv"; "temp_audio"; "tmpabc.wav"] (Bytes "RIFF") "audio/wav" false.
Proof.
  apply (serve_audio_serves_regular_files sample_cfg sample_fs "tmpabc.wav");
    [vm_compute; reflexivity | vm_compute; reflexivity | vm_compute; reflexivity
    | discriminate | vm_compute; reflexivity | vm_compute; reflexivity
    | vm_compute; reflexivity].
Defined.

(** ** The life of an artifact *)

(** A successful [generate_speech], with the whole state it leaves. *)
Lemma generate_speech_tool_state cfg ops svc text voice_id speed w r w' :
  generate_speech_tool cfg ops svc text voice_id speed w = (Ok r, w') ->
  ∃ n d audio,
    drawn w <= n
    ∧ realpath (fs w) (TEMP_AUDIO_DIR cfg) = Some d
    ∧ fs w !! (d ++ [temp_name w n]) = None
    ∧ r = Speech (audio_uri_of cfg (temp_name w n)) "wav"
    ∧ fs w' = <[d ++ [temp_name w n] := File (Wave KOKORO_SAMPLE_RATE audio)]> (fs w)
    ∧ choices w' = choices w
    ∧ drawn w' = S n.
Proof.
  unfold generate_speech_tool. destruct (_ || _); [done |].
  destruct (generate_speech_try _ _ _ _ _ _ _) as [[r0 | e] w1] eqn:Htry.
  2:{ by destruct (_ || _). }
  intros [= <- <-]. unfold generate_speech_try in Htry.
  destruct (py_float ops speed) as [speed_float |]; [| done].
  destruct (generate_speech_audio _ _ _ _ _ _) as [[p | e] w2] eqn:Haudio; [| done].
  injection Htry as <- <-. unfold generate_speech_audio in Haudio.
  destruct (kokoro_model svc) as [model |]; [| done].
  destruct (negb _); [done |].
  destruct voice_id as [| | | | [| c rest]]; try done.
  destruct (kokoro_pipelines svc !! _) as [pipeline |]; [| done].
  set (v := String c rest) in *. set (w0 := emit _ w) in *.
  destruct (generate_speech_audio_try cfg model pipeline text v speed_float w0)
    as [[p0 | e] w3] eqn:Htry.
  2:{ by destruct (isinstance e KeyError). }
  injection Haudio as <- <-.
  destruct (load_voice pipeline v) as [pack |] eqn:Hpack.
  2:{ unfold generate_speech_audio_try in Htry. by rewrite Hpack in Htry. }
  destruct (segments pipeline text v speed_float) as [| [ps |] later] eqn:Hseg;
    try (unfold generate_speech_audio_try in Htry;
         rewrite Hpack, Hseg in Htry; by cbn [first_segment] in Htry).
  destruct (py_index pack (Z.of_nat (String.length ps) - 1)) as [ref_s |] eqn:Hidx.
  2:{ unfold generate_speech_audio_try in Htry. rewrite Hpack, Hseg in Htry.
      unfold first_segment in Htry. by rewrite Hidx in Htry. }
  destruct (model ps ref_s speed_float) as [audio |] eqn:Hmodel.
  2:{ unfold generate_speech_audio_try in Htry. rewrite Hpack, Hseg in Htry.
      unfold first_segment in Htry. by rewrite Hidx, Hmodel in Htry. }
  destruct (generate_speech_audio_try_segment cfg model pipeline text v speed_float w0
              pack ps later ref_s audio Hpack Hseg Hidx Hmodel)
    as [(e & w1 & Hr & _) | (n & d & Hle & Hd & _ & Hfree & _ & Hr)];
    rewrite Hr in Htry; [done |].
  injection Htry as <- <-. exists n, d, audio.
  subst w0. cbn [fs drawn choices emit] in *.
  change (temp_name (emit _ w) n) with (temp_name w n) in *.
  repeat (split; [done |]). split; [by rewrite last_snoc_name |]. done.
Qed.

Lemma temp_name_not_rejected w n : prefix_rejected (temp_name w n) = false.
Proof. reflexivity. Qed.

Lemma append_inj_l (a x y : string) : a +:+ x = a +:+ y -> x = y.
Proof.
  induction a as [| c a IH]; [done |].
  change (String c (a +:+ x) = String c (a +:+ y) -> x = y).
  intros [= E]. by apply IH.
Qed.

Lemma audio_uri_of_inj cfg (x y : string) :
  audio_uri_of cfg x = audio_uri_of cfg y -> x = y.
Proof.
  unfold audio_uri_of. intros E.
  by do 5 apply append_inj_l in E.
Qed.

(** X2.  What [generate_speech] returns can be fetched.  In a directory
    that is its own real path, after a successful call the name at the end
    of the returned URI, given to [serve_audio], is answered with the wave
    data that the call wrote, as [audio/wav]; before the call the same
    request was answered 404. *)
Theorem generated_artifact_is_served cfg ops svc text voice_id speed w r w' :
  Path_resolve (fs w) (TEMP_AUDIO_DIR cfg) = Ok (TEMP_AUDIO_DIR cfg) ->
  generate_speech_tool cfg ops svc text voice_id speed w = (Ok r, w') ->
  ∃ name audio,
    r = Speech (audio_uri_of cfg name) "wav"
    ∧ serve_audio cfg (fs w) name = Plain "Not Found" 404
    ∧ serve_audio cfg (fs w') name
      = SendFile (TEMP_AUDIO_DIR cfg ++ [name]) (Wave KOKORO_SAMPLE_RATE audio)
          "audio/wav" false.
Proof.
  intros Hdir Hcall.
  destruct (generate_speech_tool_state _ _ _ _ _ _ _ _ _ Hcall)
    as (n & d & audio & _ & Hd & Hfree & -> & Hfs & _ & _).
  pose proof Hdir as [Hnul Hreal]%Path_resolve_Ok.
  rewrite Hreal in Hd. injection Hd as <-.
  destruct (temp_name_ordinary w n) as [Hskip Hdd].
  exists (temp_name w n), audio. split; [done |]. split.
  - apply serve_audio_no_file_entry; auto using temp_name_chars.
  - apply serve_audio_file_entry; auto using temp_name_chars, temp_name_not_rejected.
    + apply Path_resolve_Ok. split; [done |].
      rewrite Hfs, <- (realpath_same_links (fs w)); [done |].
      apply same_links_insert_file. unfold readlink. by rewrite Hfree.
    + by rewrite Hfs, lookup_insert_eq.
Qed.

Lemma generated_artifact_is_served_witness :
  ∃ name audio,
    serve_audio sample_cfg
      (fs (snd (generate_speech_tool sample_cfg sample_ops sample_svc
                  (VStr "Hello world") (VStr "af_test_voice") (VFloat (Float "1.2"))
                  sample_world))) name
    = SendFile (TEMP_AUDIO_DIR sample_cfg ++ [name]) (Wave KOKORO_SAMPLE_RATE audio)
        "audio/wav" false.
Proof.
  assert (generate_speech_tool sample_cfg sample_ops sample_svc
            (VStr "Hello world") (VStr "af_test_voice") (VFloat (Float "1.2"))
            sample_world
          = (Ok (Speech "http://127.0.0.1:8080/audio/tmpabcdefgh.wav" "wav"),
             snd (generate_speech_tool sample_cfg sample_ops sample_svc
                    (VStr "Hello world") (VStr "af_test_voice") (VFloat (Float "1.2"))
                    sample_world))) as Hcall
    by (vm_compute; reflexivity).
  assert (Path_resolve (fs sample_world) (TEMP_AUDIO_DIR sample_cfg)
          = Ok (TEMP_AUDIO_DIR sample_cfg)) as Hdir by (vm_compute; reflexivity).
  destruct (generated_artifact_is_served sample_cfg sample_ops sample_svc _ _ _ _ _ _
              Hdir Hcall)
    as (name & audio & _ & _ & Hserve).
  by exists name, audio.
Defined.




(** X4.  Two artifacts never share a name.  When a successful
    [generate_speech] is followed by another, the two results differ, and
    the file of the first is still there, unchanged, after the second. *)
Theorem consecutive_artifacts_differ cfg ops svc
    text1 voice_id1 speed1 text2 voice_id2 speed2 w r1 w1 r2 w2 :
  generate_speech_tool cfg ops svc text1 voice_id1 speed1 w = (Ok r1, w1) ->
  generate_speech_tool cfg ops svc text2 voice_id2 speed2 w1 = (Ok r2, w2) ->
  r1 ≠ r2
  ∧ ∃ d name1 audio1,
      r1 = Speech (audio_uri_of cfg name1) "wav"
      ∧ fs w1 !! (d ++ [name1]) = Some (File (Wave KOKORO_SAMPLE_RATE audio1))
      ∧ fs w2 !! (d ++ [name1]) = Some (File (Wave KOKORO_SAMPLE_RATE audio1)).
Proof.
  intros Hcall1 Hcall2.
  destruct (generate_speech_tool_state _ _ _ _ _ _ _ _ _ Hcall1)
    as (n1 & d & audio1 & _ & Hd & Hfree1 & -> & Hfs1 & _ & _).
  destruct (generate_speech_tool_state _ _ _ _ _ _ _ _ _ Hcall2)
    as (n2 & d2 & audio2 & _ & Hd2 & Hfree2 & -> & Hfs2 & _ & _).
  assert (d2 = d) as ->.
  { rewrite Hfs1, <- (realpath_same_links (fs w)), Hd in Hd2; [by injection Hd2 |].
    apply same_links_insert_file. unfold readlink. by rewrite Hfree1. }
  assert (temp_name w n1 ≠ temp_name w1 n2) as Hne.
  { intros E. rewrite <- E, Hfs1, lookup_insert_eq in Hfree2. done. }
  split.
  - intros E. apply Hne, (audio_uri_of_inj cfg).
    exact (f_equal (fun r => match r with Speech u _ => u | _ => "" end) E).
  - exists d, (temp_name w n1), audio1. split; [done |].
    assert (fs w1 !! (d ++ [temp_name w n1])
            = Some (File (Wave KOKORO_SAMPLE_RATE audio1))) as Hone
      by by rewrite Hfs1, lookup_insert_eq.
    split; [done |].
    rewrite Hfs2, lookup_insert_ne; [done |].
    intros E. apply app_inv_head in E. apply Hne. congruence.
Qed.

Lemma consecutive_artifacts_differ_witness :
  fst (generate_speech_tool sample_cfg sample_ops sample_svc
         (VStr "Hello world") (VStr "af_test_voice") (VFloat (Float "1.2"))
         sample_world)
  ≠ fst (generate_speech_tool sample_cfg sample_ops sample_svc
           (VStr "Hello world") (VStr "af_test_voice") (VFloat (Float "1.2"))
           (snd (generate_speech_tool sample_cfg sample_ops sample_svc
                   (VStr "Hello world") (VStr "af_test_voice") (VFloat (Float "1.2"))
                   sample_world))).
Proof.
  set (first := generate_speech_tool sample_cfg sample_ops sample_svc
                  (VStr "Hello world") (VStr "af_test_voice") (VFloat (Float "1.2"))
                  sample_world).
  set (second := generate_speech_tool sample_cfg sample_ops sample_svc
                   (VStr "Hello world") (VStr "af_test_voice") (VFloat (Float "1.2"))
                   (snd first)).
  assert (first = (Ok (Speech "http://127.0.0.1:8080/audio/tmpabcdefgh.wav" "wav"),
                   snd first)) as Hcall1 by (vm_compute; reflexivity).
  assert (second = (Ok (Speech "http://127.0.0.1:8080/audio/tmpbcdefghi.wav" "wav"),
                    snd second)) as Hcall2 by (vm_compute; reflexivity).
  destruct (consecutive_artifacts_differ sample_cfg sample_ops sample_svc
              _ _ _ _ _ _ _ _ _ _ _ Hcall1 Hcall2) as [Hne _].
  rewrite Hcall1, Hcall2. cbn [fst]. intros E. apply Hne. by injection E as ->.
Defined.

(** ** Start-up: [init_kokoro] and [main] *)

(** X5.  [init_kokoro] cannot come back with voices.  When the model is not
    loaded yet and the library reports a catalogue that is not empty, the
    log line of that branch fails on the undefined name [_len], so the call
    ends in [sys.exit(1)] whatever the device and the rest of the library
    do; [main] then exits with status 1 before the HTTP thread is started
    and before the loop is entered. *)
Theorem init_kokoro_exits_when_voices_found k device svc voices :
  kokoro_model svc = None ->
  get_voices k = Ok voices ->
  voices ≠ [] ->
  (init_kokoro k device svc).1 = Exited 1
  ∧ ∀ thread_start waits running,
      (main k device thread_start waits svc running).1 = MainExited 1 false.
Proof.
  intros Hmodel Hvoices Hne.
  assert ((init_kokoro k device svc).1 = Exited 1) as Hinit.
  { unfold init_kokoro. rewrite Hmodel, Hvoices.
    destruct (new_model k device); [| done].
    destruct voices; done. }
  split; [done |].
  intros thread_start waits running. unfold main.
  destruct (init_kokoro k device svc) as [[| status] svc']; cbn [fst] in *; [done |].
  by injection Hinit as ->.
Qed.

Lemma init_kokoro_exits_when_voices_found_witness :
  (init_kokoro sample_kokoro "cpu" initial_service).1 = Exited 1.
Proof.
  apply (init_kokoro_exits_when_voices_found sample_kokoro "cpu" initial_service
           [("af_test_voice", "Test Voice Female")]); [reflexivity | reflexivity | done].
Defined.

(** X6.  What a returning [init_kokoro] leaves.  When the model was not
    loaded and the call returns, the catalogue it stored is empty and the
    pipelines are those there were; so the voice list is empty, the
    synthesis service refuses every voice as invalid without touching the
    store, and [generate_speech] never succeeds. *)
Theorem init_kokoro_returns_without_voices k device svc svc' :
  kokoro_model svc = None ->
  init_kokoro k device svc = (Returned, svc') ->
  get_voices k = Ok []
  ∧ kokoro_model svc' ≠ None
  ∧ get_voice_list svc' = []
  ∧ kokoro_pipelines svc' = kokoro_pipelines svc
  ∧ (∀ cfg text voice_id speed w,
       generate_speech_audio cfg svc' text voice_id speed w
       = (Raise (Exn ValueError ("Invalid voice_id: " +:+ str_value voice_id)),
          emit (CallGenerateSpeechAudio text voice_id speed) w))
  ∧ (∀ cfg ops text voice_id speed w r w',
       generate_speech_tool cfg ops svc' text voice_id speed w ≠ (Ok r, w')).
Proof.
  intros Hmodel Hinit. unfold init_kokoro in Hinit. rewrite Hmodel in Hinit.
  destruct (new_model k device) as [model |]; [| done].
  destruct (get_voices k) as [[| v voices] |]; [| done | done].
  cbn in Hinit. injection Hinit as <-. cbn.
  assert (∀ cfg text voice_id speed w,
            generate_speech_audio cfg
              {| kokoro_model := Some model; available_voices := [];
                 kokoro_pipelines := kokoro_pipelines svc |} text voice_id speed w
            = (Raise (Exn ValueError ("Invalid voice_id: " +:+ str_value voice_id)),
               emit (CallGenerateSpeechAudio text voice_id speed) w)) as Haudio.
  { intros cfg text voice_id speed w. unfold generate_speech_audio. cbn.
    by destruct voice_id. }
  repeat (split; [done |]).
  intros cfg ops text voice_id speed w r w'.
  unfold generate_speech_tool, generate_speech_try.
  destruct (negb (truthy text) || negb (truthy voice_id)); [done |].
  destruct (py_float ops speed) as [speed_float |]; [| by case_match].
  rewrite Haudio. by case_match.
Qed.

Lemma init_kokoro_returns_without_voices_witness :
  get_voice_list (init_kokoro sample_kokoro_no_voices "cpu" initial_service).2 = [].
Proof.
  apply (init_kokoro_returns_without_voices sample_kokoro_no_voices "cpu"
           initial_service); [reflexivity | reflexivity].
Defined.

(** X7.  [init_kokoro] initialises once.  After a call that returned, every
    further call, with whatever library and device, returns at once and
    leaves the globals as they are. *)
Theorem init_kokoro_once k device svc svc' :
  init_kokoro k device svc = (Returned, svc') ->
  ∀ k' device', init_kokoro k' device' svc' = (Returned, svc').
Proof.
  intros Hinit k' device'.
  assert (∃ model, kokoro_model svc' = Some model) as [model Hmodel].
  { unfold init_kokoro in Hinit.
    destruct (kokoro_model svc) as [model |] eqn:Hm.
    - injection Hinit as <-. by exists model.
    - destruct (new_model k device) as [model |]; [| done].
      destruct (get_voices k) as [voices |]; [| done].
      destruct (log_voices_loaded voices); [| done].
      destruct (first_chars voices.*1); [| done].
      injection Hinit as <-. by exists model. }
  unfold init_kokoro. by rewrite Hmodel.
Qed.

Lemma init_kokoro_once_witness :
  init_kokoro sample_kokoro "cuda"
    (init_kokoro sample_kokoro_no_voices "cpu" initial_service).2
  = (Returned, (init_kokoro sample_kokoro_no_voices "cpu" initial_service).2).
Proof.
  apply (init_kokoro_once sample_kokoro_no_voices "cpu" initial_service).
  reflexivity.
Defined.

(** ** The server loop *)

Lemma serve_forever_timeouts n waits :
  serve_forever (replicate n TimedOut ++ waits) true = serve_forever waits true.
Proof. induction n as [| n IH]; [done | exact IH]. Qed.

Lemma serve_forever_stopped waits : serve_forever waits false = (false, waits).
Proof. by destruct waits. Qed.

Lemma serve_forever_left waits :
  (serve_forever waits true).1 = false ↔ ∃ o, o ∈ waits ∧ o ≠ TimedOut.
Proof.
  induction waits as [| o waits IH].
  - split; [done |]. intros (o & Ho & _). by apply elem_of_nil in Ho.
  - destruct o; cbn [serve_forever shutdown].
    + rewrite IH. split.
      * intros (o & Ho & Hne). exists o. split; [by right | done].
      * intros (o & Ho & Hne). exists o. split; [| done].
        apply elem_of_cons in Ho as [-> | Ho]; done.
    + rewrite serve_forever_stopped. split; [| done].
      intros _. exists KeyboardInterrupt. split; [by left | done].
    + rewrite serve_forever_stopped. split; [| done].
      intros _. exists (WaitError e). split; [by left | done].
Qed.

(** X8.  [serve_forever] leaves the loop at the first wait that ends in a
    [KeyboardInterrupt] or an exception, and at no other: waits that time
    out are passed over, the waits after the first interruption are never
    made, and the loop is left only if some wait is interrupted. *)
Theorem serve_forever_stops_at_first_interruption waits :
  (∀ n o rest,
     o ≠ TimedOut ->
     serve_forever (replicate n TimedOut ++ o :: rest) true = (false, rest))
  ∧ (∀ n, serve_forever (replicate n TimedOut) true = (true, []))
  ∧ ((serve_forever waits true).1 = false ↔ ∃ o, o ∈ waits ∧ o ≠ TimedOut).
Proof.
  split; [| split].
  - intros n o rest Ho. rewrite serve_forever_timeouts.
    destruct o; [done | |]; cbn [serve_forever shutdown];
      apply serve_forever_stopped.
  - intros n. rewrite <- (app_nil_r (replicate n TimedOut)).
    by rewrite serve_forever_timeouts.
  - apply serve_forever_left.
Qed.

Lemma serve_forever_stops_at_first_interruption_witness :
  serve_forever [TimedOut; TimedOut; KeyboardInterrupt; TimedOut] true
  = (false, [TimedOut]).
Proof.
  assert (KeyboardInterrupt ≠ TimedOut) as Hne by done.
  exact (proj1 (serve_forever_stops_at_first_interruption []) 2 KeyboardInterrupt
           [TimedOut] Hne).
Defined.

(** X9.  How [main] can end.  It returns exactly when the initialisation
    returned, the HTTP thread started and some wait of the loop was
    interrupted; when it exits, the status is 1 and the HTTP thread has not
    been started. *)
Theorem main_outcomes k device thread_start waits svc :
  ((main k device thread_start waits svc true).1 = MainReturned
   ↔ (init_kokoro k device svc).1 = Returned
     ∧ (∃ u, thread_start = Ok u)
     ∧ ∃ o, o ∈ waits ∧ o ≠ TimedOut)
  ∧ (∀ status http_started,
       (main k device thread_start waits svc true).1 = MainExited status http_started ->
       status = 1%Z ∧ http_started = false
       ∧ ((init_kokoro k device svc).1 = Exited 1
          ∨ ∃ e, thread_start = Raise e)).
Proof.
  assert (∀ status svc', init_kokoro k device svc = (Exited status, svc') -> status = 1%Z)
    as Hstatus.
  { intros status svc'. unfold init_kokoro.
    destruct (kokoro_model svc); [done |].
    destruct (new_model k device); [| by intros [= <- _]].
    destruct (get_voices k) as [voices |]; [| by intros [= <- _]].
    destruct (log_voices_loaded voices); [| by intros [= <- _]].
    destruct (first_chars voices.*1); [done | by intros [= <- _]]. }
  unfold main.
  destruct (init_kokoro k device svc) as [[| status] svc'] eqn:Hinit; cbn [fst].
  - destruct thread_start as [u | e]; cbn [fst].
    + pose proof (serve_forever_left waits) as Hleft.
      destruct ((serve_forever waits true).1); cbn [fst]; split.
      * split; [done |]. intros (_ & _ & Hsome). apply Hleft in Hsome. done.
      * done.
      * split; [| done]. intros _. split; [done |]. split; [by exists u |].
        by apply Hleft.
      * done.
    + split.
      * split; [done |]. by intros (_ & [u Hu] & _).
      * intros status http_started [= <- <-]. split; [done |]. split; [done |].
        right. by exists e.
  - rewrite (Hstatus _ _ eq_refl). split.
    + split; [done |]. by intros [? _].
    + intros status' http_started [= <- <-]. split; [done |]. split; [done |].
      by left.
Qed.

Lemma main_outcomes_witness :
  (main sample_kokoro_no_voices "cpu" (Ok tt) [TimedOut; KeyboardInterrupt]
     initial_service true).1
  = MainReturned.
Proof.
  apply (proj1 (main_outcomes sample_kokoro_no_voices "cpu" (Ok tt)
                  [TimedOut; KeyboardInterrupt] initial_service)).
  split; [reflexivity |]. split; [by exists tt |].
  exists KeyboardInterrupt. split; [| done]. right. left.
Defined.

(** ** [config.py] *)

Lemma dotenv_values_lookup bindings key (d : gmap string (option string)) :
  foldl (fun d kv => <[kv.1 := kv.2]> d) d bindings !! key
  = match last_binding bindings key with
    | Some v => Some v
    | None => d !! key
    end.
Proof.
  revert d. induction bindings as [| kv rest IH]; intros d; [done |].
  cbn [foldl last_binding]. rewrite IH.
  destruct (last_binding rest key); [done |].
  case_bool_decide as Hk.
  - by rewrite <- Hk, lookup_insert_eq.
  - by rewrite lookup_insert_ne.
Qed.

Lemma load_dotenv_lookup file environ key :
  load_dotenv file environ !! key
  = match file_sets file key with
    | Some v => Some v
    | None => environ !! key
    end.
Proof.
  destruct file as [bindings |]; [| done]. unfold load_dotenv, file_sets.
  rewrite lookup_union, lookup_omap. unfold dotenv_values.
  rewrite dotenv_values_lookup, lookup_empty.
  destruct (last_binding bindings key) as [[v |] |]; cbn;
    by destruct (environ !! key).
Qed.

(** X10.  Which value of a variable the configuration sees.  After the two
    loads of [config.py], a variable has the value of its last binding in
    [.env] if that file is there and binds it to a value; otherwise the
    value of its last binding in [.env.test], under the same conditions;
    otherwise the value the environment had.  [HTTP_HOST] is that value,
    and [127.0.0.1] if there is none. *)
Theorem dotenv_precedence env_test env_main environ key :
  load_environment env_test env_main environ !! key
  = match file_sets env_main key with
    | Some v => Some v
    | None =>
        match file_sets env_test key with
        | Some v => Some v
        | None => environ !! key
        end
    end
  ∧ config_HTTP_HOST (load_environment env_test env_main environ)
    = default (default (default "127.0.0.1" (environ !! "HTTP_HOST"))
                 (file_sets env_test "HTTP_HOST"))
        (file_sets env_main "HTTP_HOST").
Proof.
  unfold config_HTTP_HOST, load_environment. rewrite !load_dotenv_lookup.
  split; [done |].
  destruct (file_sets env_main "HTTP_HOST"); [done |].
  by destruct (file_sets env_test "HTTP_HOST").
Qed.

Lemma lower_empty : lower "" = "".
Proof. reflexivity. Qed.

(** X11.  The device.  [determine_device] always answers [cuda], [cpu] or
    [mps].  A value of [KOKORO_DEVICE] that is one of the three in any
    letter case is returned in lower case whatever the hardware offers; any
    other value counts as none given.  Without a usable value, [cuda] is
    chosen exactly when CUDA is available, and [mps] exactly when CUDA is
    not, the MPS backend exists, says it is available, and a tensor can be
    made on it. *)
Theorem determine_device_cases device_env torch :
  determine_device device_env torch ∈ ["cuda"; "cpu"; "mps"]
  ∧ (∀ e, device_env = Some e ->
          lower e ∈ ["cuda"; "cpu"; "mps"] ->
          determine_device device_env torch = lower e)
  ∧ (∀ e, device_env = Some e ->
          lower e ∉ ["cuda"; "cpu"; "mps"] ->
          determine_device device_env torch = determine_device None torch)
  ∧ (determine_device None torch = "cuda" ↔ cuda_is_available torch = true)
  ∧ (determine_device None torch = "mps"
     ↔ cuda_is_available torch = false ∧ has_mps torch = true
       ∧ mps_is_available torch = true ∧ mps_zeros_ok torch = true).
Proof.
  assert (∀ e, lower e ∈ ["cuda"; "cpu"; "mps"] -> e ≠ "") as Hnonempty.
  { intros e He ->. rewrite lower_empty in He.
    apply list_elem_of_In in He. cbn in He. intuition discriminate. }
  assert (determine_device None torch ∈ ["cuda"; "cpu"; "mps"]) as Hauto.
  { unfold determine_device.
    destruct (cuda_is_available torch), (has_mps torch), (mps_is_available torch),
      (mps_zeros_ok torch); cbn; apply list_elem_of_In; cbn; tauto. }
  assert (∀ e, lower e ∈ ["cuda"; "cpu"; "mps"] ->
               determine_device (Some e) torch = lower e) as Hgiven.
  { intros e He. unfold determine_device.
    rewrite (bool_decide_eq_false_2 _ (Hnonempty e He)), (bool_decide_eq_true_2 _ He).
    done. }
  assert (∀ e, lower e ∉ ["cuda"; "cpu"; "mps"] ->
               determine_device (Some e) torch = determine_device None torch) as Hother.
  { intros e He. unfold determine_device.
    rewrite (bool_decide_eq_false_2 _ He). by rewrite andb_false_r. }
  split; [| split; [| split; [| split]]].
  - destruct device_env as [e |]; [| done].
    destruct (decide (lower e ∈ ["cuda"; "cpu"; "mps"])) as [He | He].
    + by rewrite Hgiven.
    + by rewrite Hother.
  - intros e -> He. by apply Hgiven.
  - intros e -> He. by apply Hother.
  - unfold determine_device.
    destruct (cuda_is_available torch), (has_mps torch), (mps_is_available torch),
      (mps_zeros_ok torch); cbn; split; done.
  - unfold determine_device.
    destruct (cuda_is_available torch), (has_mps torch), (mps_is_available torch),
      (mps_zeros_ok torch); cbn; split; (done || by intros (? & ? & ? & ?)).
Qed.

Lemma determine_device_cases_witness :
  determine_device (Some "CUDA")
    {| cuda_is_available := false; has_mps := true; mps_is_available := true;
       mps_zeros_ok := true |}
  = "cuda".
Proof.
  assert (lower "CUDA" ∈ ["cuda"; "cpu"; "mps"]) as Hin by left.
  exact (proj1 (proj2 (determine_device_cases (Some "CUDA")
                         {| cuda_is_available := false; has_mps := true;
                            mps_is_available := true; mps_zeros_ok := true |}))
           "CUDA" eq_refl Hin).
Defined.

(** ** The dispatcher's calling conventions *)

Lemma known_keywords (sig : list (string * option value))
    (kwargs : list (string * value)) :
  Forall (fun kv => kv.1 ∈ sig.*1) kwargs ->
  forallb (fun kv => bool_decide (kv.1 ∈ sig.*1)) kwargs = true.
Proof.
  induction 1 as [| kv kwargs Hkv _ IH]; [done |].
  cbn [forallb]. by rewrite (bool_decide_eq_true_2 _ Hkv), IH.
Qed.

(** X12.  Named and positional arguments reach [generate_speech] alike.  A
    [params] object whose keys are among [text], [voice_id] and [speed] and
    that gives the first two is answered as the list of the same values in
    the order of the parameters, a missing [speed] being 1.0; and a list of
    two values is answered as the list of three with speed 1.0. *)
Theorem generate_speech_call_conventions cfg ops svc kwargs text voice_id id w :
  Forall (fun kv => kv.1 ∈ ["text"; "voice_id"; "speed"]) kwargs ->
  dict_get kwargs "text" = Some text ->
  dict_get kwargs "voice_id" = Some voice_id ->
  handle_request cfg ops svc
    {| req_method := VStr "generate_speech"; req_params := Some (PDict kwargs);
       req_id := id |} w
  = handle_request cfg ops svc
      {| req_method := VStr "generate_speech";
         req_params :=
           Some (PList [text; voice_id;
                        default (VFloat (Float "1.0")) (dict_get kwargs "speed")]);
         req_id := id |} w
  ∧ handle_request cfg ops svc
      {| req_method := VStr "generate_speech";
         req_params := Some (PList [text; voice_id]); req_id := id |} w
    = handle_request cfg ops svc
        {| req_method := VStr "generate_speech";
           req_params := Some (PList [text; voice_id; VFloat (Float "1.0")]);
           req_id := id |} w.
Proof.
  intros Hkeys Htext Hvoice. split; [| reflexivity].
  unfold handle_request, call_tool.
  cbn [req_method req_params req_id default from_option Datatypes.id
       tools tool_params tool_body bind_params].
  unfold call_with_keywords.
  rewrite (known_keywords
             [("text", None); ("voice_id", None); ("speed", Some (VFloat (Float "1.0")))]
             kwargs Hkeys).
  cbn [negb bind_keywords bind_positional]. rewrite Htext, Hvoice.
  by destruct (dict_get kwargs "speed").
Qed.

Lemma generate_speech_call_conventions_witness :
  handle_request sample_cfg sample_ops sample_svc
    {| req_method := VStr "generate_speech";
       req_params := Some (PDict [("voice_id", VStr "af_test_voice");
                                  ("text", VStr "Hello world")]);
       req_id := VInt 1 |} sample_world
  = handle_request sample_cfg sample_ops sample_svc
      {| req_method := VStr "generate_speech";
         req_params := Some (PList [VStr "Hello world"; VStr "af_test_voice";
                                    VFloat (Float "1.0")]);
         req_id := VInt 1 |} sample_world.
Proof.
  apply (generate_speech_call_conventions sample_cfg sample_ops sample_svc
           [("voice_id", VStr "af_test_voice"); ("text", VStr "Hello world")]
           (VStr "Hello world") (VStr "af_test_voice") (VInt 1) sample_world).
  - repeat constructor.
  - reflexivity.
  - reflexivity.
Defined.

(** ** Failures of [generate_speech] *)









(** ** What [cleanup_audio] reads of its URI *)










(** ** Files below the artifact directory *)





(** ** What the client is told when the service refuses *)



(** ** The speaker embedding of the segment *)




